(** * crypto-crash: the round engine of [server/server.js]

    A shallow embedding of the server: JavaScript numbers are IEEE 754
    binary64 values (the executable specification [SpecFloat] of the
    Standard Library), strings are byte strings, the two [Map]s of
    [gameState] are finite maps, and the event loop is a step relation whose
    labels are the macrotasks of the program (timers, requests, database
    replies). *)

From Stdlib Require Import ZArith String Ascii List Lia Bool.
From Stdlib Require Import Floats.SpecFloat.
From stdpp Require Import gmap strings list fin_maps pretty.

Local Open Scope Z_scope.

(** ** JavaScript numbers *)

Module Num.

Definition prec : Z := 53.
Definition emax : Z := 1024.

Abbreviation num := spec_float.

(** An integer (a [Date.now()] stamp, an integer literal, the result of
    [parseInt]) as a number: rounded to nearest, ties to even. *)
Definition of_Z (z : Z) : num := binary_normalize prec emax z 0 false.

Definition add : num -> num -> num := SFadd prec emax.
Definition sub : num -> num -> num := SFsub prec emax.
Definition mul : num -> num -> num := SFmul prec emax.
Definition div : num -> num -> num := SFdiv prec emax.

(** The decimal literal [m / 10^k], e.g. [dec 101 2] for [1.01]: the
    binary64 value nearest to it. *)
Definition dec (m k : Z) : num := div (of_Z m) (of_Z (10 ^ k)).

Definition nan : num := S754_nan.
Definition infinity : num := S754_infinity false.

Definition is_nan (x : num) : bool :=
  match x with S754_nan => true | _ => false end.

(** [x < y], [x > y], [x >= y], [x <= y]: false when an operand is NaN *)
Definition lt (x y : num) : bool := SFltb x y.
Definition gt (x y : num) : bool := SFltb y x.
Definition le (x y : num) : bool := SFleb x y.
Definition ge (x y : num) : bool := SFleb y x.

(** [Math.max(x, y)] and [Math.min(x, y)]: NaN when an operand is NaN,
    and [+0] is larger than [-0]. *)
Definition max (x y : num) : num :=
  match SFcompare x y with
  | None => nan
  | Some Lt => y
  | Some Gt => x
  | Some Eq => match x with S754_zero true => y | _ => x end
  end.

Definition min (x y : num) : num :=
  match SFcompare x y with
  | None => nan
  | Some Lt => x
  | Some Gt => y
  | Some Eq => match x with S754_zero false => y | _ => x end
  end.

(** truthiness of a number: [0], [-0] and NaN are falsy *)
Definition truthy (x : num) : bool :=
  match x with
  | S754_zero _ | S754_nan => false
  | _ => true
  end.

End Num.

Abbreviation num := spec_float.

(** ** Hexadecimal strings and [parseInt(s, 16)] *)

Module Hex.

Definition digit (n : Z) : ascii :=
  match n with
  | 0 => "0" | 1 => "1" | 2 => "2" | 3 => "3"
  | 4 => "4" | 5 => "5" | 6 => "6" | 7 => "7"
  | 8 => "8" | 9 => "9" | 10 => "a" | 11 => "b"
  | 12 => "c" | 13 => "d" | 14 => "e" | _ => "f"
  end%char.

Definition nibble (w i : Z) : Z := (w / 16 ^ i) mod 16.

(** a 32-bit word as eight lowercase digits, as [digest("hex")] prints it *)
Definition hex8 (w : Z) : string :=
  String (digit (nibble w 7)) (String (digit (nibble w 6))
  (String (digit (nibble w 5)) (String (digit (nibble w 4))
  (String (digit (nibble w 3)) (String (digit (nibble w 2))
  (String (digit (nibble w 1)) (String (digit (nibble w 0)) ""))))))).

(** a byte as two digits, as [toString("hex")] prints it *)
Definition hex2 (b : Z) : string :=
  String (digit (nibble b 1)) (String (digit (nibble b 0)) "").

Definition digit_value (c : ascii) : option Z :=
  let n := Z.of_N (N_of_ascii c) in
  if (48 <=? n) && (n <=? 57) then Some (n - 48)
  else if (97 <=? n) && (n <=? 102) then Some (n - 87)
  else if (65 <=? n) && (n <=? 70) then Some (n - 55)
  else None.

Definition is_space (c : ascii) : bool :=
  let n := Z.of_N (N_of_ascii c) in
  (n =? 32) || ((9 <=? n) && (n <=? 13)).

Fixpoint skip_spaces (s : string) : string :=
  match s with
  | String c r => if is_space c then skip_spaces r else s
  | EmptyString => s
  end.

(** the digits of the longest prefix of [s] made of hexadecimal digits,
    accumulated into [acc]; [seen] tells whether there was one *)
Fixpoint digits (s : string) (seen : bool) (acc : Z) : option Z :=
  match s with
  | String c r =>
      match digit_value c with
      | Some d => digits r true (16 * acc + d)
      | None => if seen then Some acc else None
      end
  | EmptyString => if seen then Some acc else None
  end.

Definition strip_0x (s : string) : string :=
  match s with
  | String "0" (String "x" r) => r
  | String "0" (String "X" r) => r
  | _ => s
  end.

(** [parseInt(s, 16)]: leading white space (of the ASCII range), a sign, an
    optional [0x], then the longest run of digits; NaN when there is none. *)
Definition parseInt16 (s : string) : num :=
  let s := skip_spaces s in
  let '(neg, s) :=
    match s with
    | String "-" r => (true, r)
    | String "+" r => (false, r)
    | _ => (false, s)
    end in
  match digits (strip_0x s) false 0 with
  | Some v => if neg then SFopp (Num.of_Z v) else Num.of_Z v
  | None => Num.nan
  end.

End Hex.

(** [s.substring(0, n)] *)
Fixpoint take_string (n : nat) (s : string) : string :=
  match n, s with
  | S n', String c r => String c (take_string n' r)
  | _, _ => EmptyString
  end.

(** ** SHA-256 (FIPS 180-4), as [crypto.createHash("sha256")] computes it *)

Module Sha256.

Definition w32 (x : Z) : Z := x mod 2 ^ 32.
Definition add32 (x y : Z) : Z := w32 (x + y).
Definition rotr (n x : Z) : Z :=
  w32 (Z.lor (Z.shiftr x n) (Z.shiftl x (32 - n))).
Definition not32 (x : Z) : Z := Z.lxor x 4294967295.

Definition Ch (x y z : Z) : Z := Z.lxor (Z.land x y) (Z.land (not32 x) z).
Definition Maj (x y z : Z) : Z :=
  Z.lxor (Z.lxor (Z.land x y) (Z.land x z)) (Z.land y z).
Definition Sigma0 (x : Z) : Z :=
  Z.lxor (Z.lxor (rotr 2 x) (rotr 13 x)) (rotr 22 x).
Definition Sigma1 (x : Z) : Z :=
  Z.lxor (Z.lxor (rotr 6 x) (rotr 11 x)) (rotr 25 x).
Definition sigma0 (x : Z) : Z :=
  Z.lxor (Z.lxor (rotr 7 x) (rotr 18 x)) (Z.shiftr x 3).
Definition sigma1 (x : Z) : Z :=
  Z.lxor (Z.lxor (rotr 17 x) (rotr 19 x)) (Z.shiftr x 10).

(** the largest [r] below [2^b] with [f r <= n], for an increasing [f] *)
Fixpoint root_floor (f : Z -> Z) (n : Z) (b : nat) (r : Z) : Z :=
  match b with
  | O => r
  | S b' =>
      let r' := r + 2 ^ Z.of_nat b' in
      root_floor f n b' (if f r' <=? n then r' else r)
  end.

Definition primes : list Z :=
  [ 2; 3; 5; 7; 11; 13; 17; 19; 23; 29; 31; 37; 41; 43; 47; 53;
    59; 61; 67; 71; 73; 79; 83; 89; 97; 101; 103; 107; 109; 113; 127; 131;
    137; 139; 149; 151; 157; 163; 167; 173; 179; 181; 191; 193; 197; 199;
    211; 223; 227; 229; 233; 239; 241; 251; 257; 263; 269; 271; 277; 281;
    283; 293; 307; 311 ].

(** the round constants: the first 32 bits of the fractional parts of the
    cube roots of the first 64 primes *)
Definition K : list Z :=
  Eval vm_compute in
    map (fun p => w32 (root_floor (fun r => r * r * r) (p * 2 ^ 96) 40 0))
        primes.

Record hstate := HState {
  h0 : Z; h1 : Z; h2 : Z; h3 : Z; h4 : Z; h5 : Z; h6 : Z; h7 : Z }.

(** the initial hash value: the same of the square roots of the first 8
    primes *)
Definition H_frac (p : Z) : Z :=
  w32 (root_floor (fun r => r * r) (p * 2 ^ 64) 40 0).

Definition H_init : hstate :=
  Eval vm_compute in
    HState (H_frac 2) (H_frac 3) (H_frac 5) (H_frac 7)
           (H_frac 11) (H_frac 13) (H_frac 17) (H_frac 19).

(** padding: a [0x80] byte, zeros up to 56 modulo 64, the bit length on 8
    bytes, big-endian *)
Definition be_bytes (n : nat) (v : Z) : list Z :=
  map (fun i => (v / 256 ^ Z.of_nat i) mod 256) (rev (seq 0 n)).

Definition pad (msg : list Z) : list Z :=
  let len := Z.of_nat (length msg) in
  let zeros := Z.to_nat ((55 - len) mod 64) in
  msg ++ 128 :: repeat 0 zeros ++ be_bytes 8 (8 * len).

Fixpoint words (n : nat) (bs : list Z) : list Z :=
  match n, bs with
  | S n', b3 :: b2 :: b1 :: b0 :: r =>
      (((b3 * 256 + b2) * 256 + b1) * 256 + b0) :: words n' r
  | _, _ => []
  end.

(** the message schedule, most recent word first *)
Fixpoint schedule (n : nat) (rw : list Z) : list Z :=
  match n with
  | O => rw
  | S n' =>
      let w :=
        add32 (add32 (sigma1 (nth 1 rw 0)) (nth 6 rw 0))
              (add32 (sigma0 (nth 14 rw 0)) (nth 15 rw 0)) in
      schedule n' (w :: rw)
  end.

Definition round (s : hstate) (kw : Z * Z) : hstate :=
  let '(HState a b c d e f g h) := s in
  let t1 := add32 (add32 (add32 h (Sigma1 e)) (add32 (Ch e f g) (fst kw)))
                  (snd kw) in
  let t2 := add32 (Sigma0 a) (Maj a b c) in
  HState (add32 t1 t2) a b c (add32 d t1) e f g.

Definition compress (s : hstate) (block : list Z) : hstate :=
  let w := rev (schedule 48 (rev (words 16 block))) in
  let '(HState a b c d e f g h) := fold_left round (combine K w) s in
  HState (add32 (h0 s) a) (add32 (h1 s) b) (add32 (h2 s) c)
         (add32 (h3 s) d) (add32 (h4 s) e) (add32 (h5 s) f)
         (add32 (h6 s) g) (add32 (h7 s) h).

Fixpoint blocks (n : nat) (bs : list Z) (s : hstate) : hstate :=
  match n with
  | O => s
  | S n' => blocks n' (skipn 64 bs) (compress s (firstn 64 bs))
  end.

Definition bytes_of_string (s : string) : list Z :=
  map (fun c => Z.of_N (N_of_ascii c)) (list_ascii_of_string s).

Definition digest (msg : list Z) : hstate :=
  let p := pad msg in
  blocks (Nat.div (length p) 64) p H_init.

(** [crypto.createHash("sha256").update(s).digest("hex")] *)
Definition sha256_hex (s : string) : string :=
  let '(HState a b c d e f g h) := digest (bytes_of_string s) in
  (Hex.hex8 a ++ Hex.hex8 b ++ Hex.hex8 c ++ Hex.hex8 d ++
   Hex.hex8 e ++ Hex.hex8 f ++ Hex.hex8 g ++ Hex.hex8 h)%string.

End Sha256.

(** ** Values sent to clients *)

Inductive jsval :=
| VNum (x : num)
| VStr (s : string)
| VNull
| VUndefined
| VBool (b : bool)
| VJson (text : string)
| VPrices (btc eth : num).

Definition opt_num (o : option num) : jsval :=
  match o with Some x => VNum x | None => VNull end.
Definition opt_str (o : option string) : jsval :=
  match o with Some x => VStr x | None => VNull end.

(** [ToNumber] of a value that is a number, [null] or [undefined] *)
Definition null_to_num (o : option num) : num :=
  match o with Some x => x | None => S754_zero false end.
Definition undef_to_num (o : option num) : num :=
  match o with Some x => x | None => Num.nan end.

(** ** Values of a request body *)

(** A value that [express.json()] hands to a handler: [null], a boolean, a
    number, a string, or an array or object, kept as its JSON text. The
    reading of a string, an array or an object as a number is not computed
    here: the value carries the number that [ToNumber] gives for it (NaN for
    ["abc"] and for [{}], 5 for ["5"] and for [[5]]). *)
Inductive JsonValue :=
| JNull
| JBool (b : bool)
| JNumber (x : num)
| JString (s : string) (n : num)
| JObject (text : string) (n : num).

(** the value as it is stored and sent back *)
Definition json_value (v : JsonValue) : jsval :=
  match v with
  | JNull => VNull
  | JBool b => VBool b
  | JNumber x => VNum x
  | JString s _ => VStr s
  | JObject text _ => VJson text
  end.

(** [ToBoolean], as in [!v] *)
Definition json_truthy (v : JsonValue) : bool :=
  match v with
  | JNull => false
  | JBool b => b
  | JNumber x => Num.truthy x
  | JString s _ => negb (String.eqb s "")
  | JObject _ _ => true
  end.

(** [ToNumber], as in [v < 1], [v > 1000] and [v / price] *)
Definition json_number (v : JsonValue) : num :=
  match v with
  | JNull => S754_zero false
  | JBool b => if b then Num.of_Z 1 else S754_zero false
  | JNumber x => x
  | JString _ n => n
  | JObject _ n => n
  end.

Definition has_field (k : string) (o : list (string * jsval)) : bool :=
  existsb (fun kv => String.eqb (fst kv) k) o.

(** ** The data of the server *)

Record Bet := {
  usdAmount : JsonValue;
  cryptoAmount : num;
  cryptoType : string;
  priceAtTime : option num }.

Record Cashout := {
  cashout_multiplier : num;
  payout : num;
  usdPayout : num }.

(** [let gameState = { ... }]; [seed] is absent until the first round *)
Record GameState := {
  isActive : bool;
  roundId : option string;
  startTime : option Z;
  multiplier : num;
  crashPoint : option num;
  seed : option string;
  players : gmap string Bet;
  cashedOut : gmap string Cashout;
  isBettingOpen : bool }.

(** [let cryptoPrices = { BTC: ..., ETH: ... }] *)
Record Prices := { BTC : num; ETH : num }.

(** [cryptoPrices[k]], [undefined] for another key *)
Definition price_of (p : Prices) (k : string) : option num :=
  if String.eqb k "BTC" then Some (BTC p)
  else if String.eqb k "ETH" then Some (ETH p)
  else None.

Record Wallet := {
  username : string;
  balances : gmap string num;
  createdAt : option Z }.

Record RoundDoc := {
  doc_roundId : option string;
  doc_crashPoint : option num;
  doc_seed : option string;
  doc_startTime : option Z;
  doc_players : gmap string Bet }.

(** the collections [wallets] and [rounds] of the database *)
Record Db := {
  wallets : list Wallet;
  rounds : list RoundDoc }.

Inductive target := ToAll | ToSocket (sid : nat).

(** one [io.emit] or [socket.emit] *)
Record Emit := {
  emit_to : target;
  emit_event : string;
  emit_payload : list (string * jsval) }.

(** one [res.status(..).json(..)] *)
Record Response := {
  status : Z;
  success : bool;
  error : option string;
  data : list (string * jsval) }.

Inductive Timer := TUpdateMultiplier | TCrashDisplay | TBettingWindow.

(** a [POST /api/bet] that passed its checks, with what it computed *)
Record BetCtx := {
  bet_request : nat;
  bet_username : string;
  bet_usdAmount : JsonValue;
  bet_cryptoType : string;
  bet_cryptoAmount : num }.

(** a handler suspended at an [await] on the database *)
Inductive Task :=
| BetFindWallet (c : BetCtx)
| BetInsertWallet (c : BetCtx) (w : Wallet)
| BetDebit (c : BetCtx)
| CashoutCredit (sid : nat) (user : string) (bet : Bet) (pay usd : num).

Record Server := {
  gameState : GameState;
  cryptoPrices : Prices;
  db : option Db;
  timers : list Timer;
  tasks : list Task;
  emitted : list Emit;
  responses : list (nat * Response);
  booted : bool }.

(** *** Field updates *)

Definition set_gameState (g : GameState) (s : Server) : Server :=
  {| gameState := g; cryptoPrices := cryptoPrices s; db := db s;
     timers := timers s; tasks := tasks s; emitted := emitted s;
     responses := responses s; booted := booted s |}.

Definition set_cryptoPrices (p : Prices) (s : Server) : Server :=
  {| gameState := gameState s; cryptoPrices := p; db := db s;
     timers := timers s; tasks := tasks s; emitted := emitted s;
     responses := responses s; booted := booted s |}.

Definition set_db (d : option Db) (s : Server) : Server :=
  {| gameState := gameState s; cryptoPrices := cryptoPrices s; db := d;
     timers := timers s; tasks := tasks s; emitted := emitted s;
     responses := responses s; booted := booted s |}.

Definition set_timers (t : list Timer) (s : Server) : Server :=
  {| gameState := gameState s; cryptoPrices := cryptoPrices s; db := db s;
     timers := t; tasks := tasks s; emitted := emitted s;
     responses := responses s; booted := booted s |}.

Definition set_tasks (t : list Task) (s : Server) : Server :=
  {| gameState := gameState s; cryptoPrices := cryptoPrices s; db := db s;
     timers := timers s; tasks := t; emitted := emitted s;
     responses := responses s; booted := booted s |}.

Definition set_emitted (e : list Emit) (s : Server) : Server :=
  {| gameState := gameState s; cryptoPrices := cryptoPrices s; db := db s;
     timers := timers s; tasks := tasks s; emitted := e;
     responses := responses s; booted := booted s |}.

Definition set_responses (r : list (nat * Response)) (s : Server) : Server :=
  {| gameState := gameState s; cryptoPrices := cryptoPrices s; db := db s;
     timers := timers s; tasks := tasks s; emitted := emitted s;
     responses := r; booted := booted s |}.

Definition set_booted (b : bool) (s : Server) : Server :=
  {| gameState := gameState s; cryptoPrices := cryptoPrices s; db := db s;
     timers := timers s; tasks := tasks s; emitted := emitted s;
     responses := responses s; booted := b |}.

Definition set_isActive (b : bool) (g : GameState) : GameState :=
  {| isActive := b; roundId := roundId g; startTime := startTime g;
     multiplier := multiplier g; crashPoint := crashPoint g; seed := seed g;
     players := players g; cashedOut := cashedOut g;
     isBettingOpen := isBettingOpen g |}.

Definition set_multiplier (m : num) (g : GameState) : GameState :=
  {| isActive := isActive g; roundId := roundId g; startTime := startTime g;
     multiplier := m; crashPoint := crashPoint g; seed := seed g;
     players := players g; cashedOut := cashedOut g;
     isBettingOpen := isBettingOpen g |}.

Definition set_players (p : gmap string Bet) (g : GameState) : GameState :=
  {| isActive := isActive g; roundId := roundId g; startTime := startTime g;
     multiplier := multiplier g; crashPoint := crashPoint g; seed := seed g;
     players := p; cashedOut := cashedOut g;
     isBettingOpen := isBettingOpen g |}.

Definition set_cashedOut (c : gmap string Cashout) (g : GameState) : GameState :=
  {| isActive := isActive g; roundId := roundId g; startTime := startTime g;
     multiplier := multiplier g; crashPoint := crashPoint g; seed := seed g;
     players := players g; cashedOut := c;
     isBettingOpen := isBettingOpen g |}.

Definition set_isBettingOpen (b : bool) (g : GameState) : GameState :=
  {| isActive := isActive g; roundId := roundId g; startTime := startTime g;
     multiplier := multiplier g; crashPoint := crashPoint g; seed := seed g;
     players := players g; cashedOut := cashedOut g;
     isBettingOpen := b |}.

(** [gameState.f = v] on the server *)
Definition upd (f : GameState -> GameState) (s : Server) : Server :=
  set_gameState (f (gameState s)) s.

(** *** Effects *)

Definition io_emit (ev : string) (p : list (string * jsval)) (s : Server)
  : Server :=
  set_emitted (emitted s ++ [Build_Emit ToAll ev p]) s.

Definition socket_emit (sid : nat) (ev : string) (p : list (string * jsval))
  (s : Server) : Server :=
  set_emitted (emitted s ++ [Build_Emit (ToSocket sid) ev p]) s.

Definition setTimeout (t : Timer) (s : Server) : Server :=
  set_timers (timers s ++ [t]) s.

Definition respond (rid : nat) (r : Response) (s : Server) : Server :=
  set_responses (responses s ++ [(rid, r)]) s.

Definition await (t : Task) (s : Server) : Server :=
  set_tasks (tasks s ++ [t]) s.

Definition bad_request (msg : string) : Response :=
  {| status := 400; success := false; error := Some msg; data := [] |}.

Definition ok_response (d : list (string * jsval)) : Response :=
  {| status := 200; success := true; error := None; data := d |}.

(** ** The operations of [server.js] *)

(** [crypto.randomBytes(32).toString("hex")], the bytes being the input *)
Definition bytes_to_hex (bs : list Byte.byte) : string :=
  fold_right (fun b r => (Hex.hex2 (Z.of_N (Byte.to_N b)) +:+ r)%string) "" bs.

(** [randomValue] of [generateCrashPoint], for a given seed *)
Definition randomValue (seed : string) : num :=
  let hash := Sha256.sha256_hex seed in
  Num.div (Hex.parseInt16 (take_string 8 hash)) (Num.of_Z 0xffffffff).

(** the raw [crashPoint], before [Math.min(crashPoint, 100)] *)
Definition rawCrashPoint (seed : string) : num :=
  Num.max (Num.dec 101 2)
    (Num.mul (Num.div (Num.of_Z 1) (Num.sub (Num.of_Z 1) (randomValue seed)))
             (Num.dec 99 2)).

Definition crashPointOf (seed : string) : num :=
  Num.min (rawCrashPoint seed) (Num.of_Z 100).

Definition generateCrashPoint (random : list Byte.byte) : num * string :=
  let seed := bytes_to_hex random in
  (crashPointOf seed, seed).

Definition default_balances : gmap string num :=
  <["BTC" := Num.dec 1 2]> (<["ETH" := Num.of_Z 1]> ∅).

Definition default_wallet (user : string) : Wallet :=
  {| username := user; balances := default_balances; createdAt := None |}.

(** the outcome of a database call: its result, or an exception *)
Inductive reply (A : Type) :=
| Done (a : A)
| Thrown.
Arguments Done {A} a.
Arguments Thrown {A}.

Definition findOne (d : Db) (user : string) : option Wallet :=
  List.find (fun w => String.eqb (username w) user) (wallets d).

Definition insertOne (d : Db) (w : Wallet) : Db :=
  {| wallets := wallets d ++ [w]; rounds := rounds d |}.

(** [$inc] of [balances.k] by [x] on a document *)
Definition inc_balance (k : string) (x : num) (w : Wallet) : Wallet :=
  {| username := username w;
     balances :=
       <[k := match balances w !! k with
              | Some b => Num.add b x
              | None => x
              end]> (balances w);
     createdAt := createdAt w |}.

Fixpoint update_first (user : string) (f : Wallet -> Wallet)
  (ws : list Wallet) : list Wallet :=
  match ws with
  | [] => []
  | w :: r =>
      if String.eqb (username w) user then f w :: r
      else w :: update_first user f r
  end.

(** [updateOne({ username }, { $inc: { ["balances." + k]: x } })] *)
Definition updateOne (d : Db) (user k : string) (x : num) : Db :=
  {| wallets := update_first user (inc_balance k x) (wallets d);
     rounds := rounds d |}.

Definition insertRound (d : Db) (r : RoundDoc) : Db :=
  {| wallets := wallets d; rounds := rounds d ++ [r] |}.

(** [getOrCreateWallet], cut at its two [await]s: what follows the reply
    of [findOne], and what follows the reply of [insertOne]. *)
Inductive wallet_next :=
| WalletReturn (w : Wallet)
| WalletInsert (w : Wallet).

Definition wallet_found (user : string) (now : Z)
  (r : reply (option Wallet)) : wallet_next :=
  match r with
  | Thrown => WalletReturn (default_wallet user)
  | Done (Some w) => WalletReturn w
  | Done None =>
      WalletInsert {| username := user; balances := default_balances;
                      createdAt := Some now |}
  end.

Definition wallet_inserted (user : string) (w : Wallet) (r : reply unit)
  : Wallet :=
  match r with
  | Thrown => default_wallet user
  | Done _ => w
  end.

(** [getOrCreateWallet(username)] run to its end against the database [d];
    [find_throws] and [insert_throws] tell which calls raise. *)
Definition getOrCreateWallet (d : option Db) (user : string) (now : Z)
  (find_throws insert_throws : bool) : Wallet * option Db :=
  match d with
  | None => (default_wallet user, None)
  | Some store =>
      let found :=
        if find_throws then Thrown else Done (findOne store user) in
      match wallet_found user now found with
      | WalletReturn w => (w, Some store)
      | WalletInsert w =>
          if insert_throws
          then (wallet_inserted user w Thrown, Some store)
          else (wallet_inserted user w (Done tt), Some (insertOne store w))
      end
  end.

(** [crashGame()]; [save_throws] tells whether saving the round raises *)
Definition crashGame (save_throws : bool) (s : Server) : Server :=
  let s := upd (set_isActive false) s in
  let g := gameState s in
  match crashPoint g with
  | None => s
  | Some cp =>
      let s := io_emit "roundCrash"
                 [("roundId", opt_str (roundId g)); ("crashPoint", VNum cp)] s in
      let s := io_emit "crashDisplay"
                 [("crashPoint", VNum cp); ("roundId", opt_str (roundId g))] s in
      let s := setTimeout TCrashDisplay s in
      match db s with
      | Some d =>
          if save_throws then s
          else set_db (Some (insertRound d
                 {| doc_roundId := roundId g; doc_crashPoint := crashPoint g;
                    doc_seed := seed g; doc_startTime := startTime g;
                    doc_players := players g |})) s
      | None => s
      end
  end.

(** [updateMultiplier()] at the time [now] *)
Definition updateMultiplier (now : Z) (save_throws : bool) (s : Server)
  : Server :=
  let g := gameState s in
  if negb (isActive g) then s
  else
    let elapsed :=
      Num.div (Num.sub (Num.of_Z now) (null_to_num (Num.of_Z <$> startTime g)))
              (Num.of_Z 1000) in
    let m := Num.add (Num.of_Z 1) (Num.mul elapsed (Num.dec 1 1)) in
    let s := upd (set_multiplier m) s in
    if Num.ge m (null_to_num (crashPoint g)) then crashGame save_throws s
    else
      let s := io_emit "multiplierUpdate"
                 [("roundId", opt_str (roundId g)); ("multiplier", VNum m)] s in
      setTimeout TUpdateMultiplier s.

(** the [gameState] that [startNewRound] assigns; [t_id] and [t_start] are
    its two readings of [Date.now()] *)
Definition newRound (random : list Byte.byte) (t_id t_start : Z)
  (g : GameState) : GameState :=
  let '(cp, sd) := generateCrashPoint random in
  {| isActive := true;
     roundId := Some ("round_" +:+ pretty t_id);
     startTime := Some t_start;
     multiplier := Num.of_Z 1;
     crashPoint := Some cp;
     seed := Some sd;
     players := players g;
     cashedOut := cashedOut g;
     isBettingOpen := false |}.

Definition roundStart (s : Server) : Server :=
  io_emit "roundStart"
    [("roundId", opt_str (roundId (gameState s)));
     ("multiplier", VNum (Num.of_Z 1))] s.

(** the clock of one [startNewRound()]: the two readings above and the one
    of the [updateMultiplier()] it calls *)
Record Clock := { t_id : Z; t_start : Z; t_tick : Z }.

Definition startNewRound (random : list Byte.byte) (c : Clock)
  (save_throws : bool) (s : Server) : Server :=
  let s := upd (newRound random (t_id c) (t_start c)) s in
  let s := roundStart s in
  updateMultiplier (t_tick c) save_throws s.

(** the callback of the 5 s timer of [crashGame] *)
Definition openBetting (s : Server) : Server :=
  let s := upd (set_players ∅) s in
  let s := upd (set_cashedOut ∅) s in
  let s := io_emit "bettingOpen"
             [("message", VStr "Place your bets now!");
              ("duration", VNum (Num.of_Z 10000))] s in
  let s := upd (set_isBettingOpen true) s in
  setTimeout TBettingWindow s.

(** the callback of the 10 s timer *)
Definition closeBetting (random : list Byte.byte) (c : Clock)
  (save_throws : bool) (s : Server) : Server :=
  let s := upd (set_isBettingOpen false) s in
  startNewRound random c save_throws s.

(** [fetchCryptoPrices()] when the request succeeds *)
Definition fetchCryptoPrices (btc eth : num) (s : Server) : Server :=
  let s := set_cryptoPrices {| BTC := btc; ETH := eth |} s in
  io_emit "priceUpdate" [("prices", VPrices btc eth)] s.

(** *** [POST /api/bet] *)

(** the body of the request; [None] is a missing field; the user name and
    the asset are strings, the amount is any value: the handler never tests
    its type *)
Record BetBody := {
  body_username : option string;
  body_usdAmount : option JsonValue;
  body_cryptoType : option string }.

(** the end of the handler: the bet enters [gameState.players] *)
Definition bet_record (c : BetCtx) (s : Server) : Server :=
  let g := gameState s in
  let bet := {| usdAmount := bet_usdAmount c;
                cryptoAmount := bet_cryptoAmount c;
                cryptoType := bet_cryptoType c;
                priceAtTime := price_of (cryptoPrices s) (bet_cryptoType c) |} in
  let s := upd (set_players (<[bet_username c := bet]> (players g))) s in
  let s := io_emit "playerBet"
             [("username", VStr (bet_username c));
              ("usdAmount", json_value (bet_usdAmount c));
              ("cryptoType", VStr (bet_cryptoType c));
              ("roundId", opt_str (roundId g))] s in
  respond (bet_request c)
    (ok_response
       [("roundId", opt_str (roundId g));
        ("usdAmount", json_value (bet_usdAmount c));
        ("cryptoAmount", VNum (bet_cryptoAmount c));
        ("cryptoType", VStr (bet_cryptoType c))]) s.

(** what follows [await getOrCreateWallet(username)]: the balance check,
    then the debit, awaited when there is a database *)
Definition bet_checked (c : BetCtx) (w : Wallet) (s : Server) : Server :=
  if Num.lt (undef_to_num (balances w !! bet_cryptoType c)) (bet_cryptoAmount c)
  then respond (bet_request c) (bad_request "Insufficient balance") s
  else
    match db s with
    | Some _ => await (BetDebit c) s
    | None => bet_record c s
    end.

Definition placeBet (rid : nat) (b : BetBody) (s : Server) : Server :=
  let g := gameState s in
  match body_username b, body_usdAmount b, body_cryptoType b with
  | Some user, Some usd, Some ct =>
      if String.eqb user "" || negb (json_truthy usd) || String.eqb ct ""
      then respond rid (bad_request "Missing required fields") s
      else if Num.lt (json_number usd) (Num.of_Z 1)
              || Num.gt (json_number usd) (Num.of_Z 1000)
      then respond rid (bad_request "Bet must be between $1 and $1000") s
      else if negb (String.eqb ct "BTC" || String.eqb ct "ETH")
      then respond rid (bad_request "Invalid crypto type") s
      else
        match players g !! user with
        | Some _ =>
            respond rid (bad_request "Already placed bet this round") s
        | None =>
            if isActive g
            then respond rid (bad_request "Betting is closed") s
            else
              let c := {| bet_request := rid;
                          bet_username := user;
                          bet_usdAmount := usd;
                          bet_cryptoType := ct;
                          bet_cryptoAmount :=
                            Num.div (json_number usd)
                              (undef_to_num (price_of (cryptoPrices s) ct)) |} in
              match db s with
              | Some _ => await (BetFindWallet c) s
              | None => bet_checked c (default_wallet user) s
              end
        end
  | _, _, _ => respond rid (bad_request "Missing required fields") s
  end.

(** *** [socket.on("cashout")] *)

(** the end of the handler: the cashout enters [gameState.cashedOut] *)
Definition cashout_record (sid : nat) (user : string) (bet : Bet)
  (pay usd : num) (s : Server) : Server :=
  let g := gameState s in
  let s := upd (set_cashedOut
                  (<[user := {| cashout_multiplier := multiplier g;
                                payout := pay;
                                usdPayout := usd |}]> (cashedOut g))) s in
  let s := io_emit "playerCashout"
             [("username", VStr user);
              ("multiplier", VNum (multiplier g));
              ("payout", VNum pay);
              ("usdPayout", VNum usd);
              ("cryptoType", VStr (cryptoType bet))] s in
  socket_emit sid "cashoutSuccess"
    [("multiplier", VNum (multiplier g));
     ("payout", VNum pay);
     ("usdPayout", VNum usd);
     ("cryptoType", VStr (cryptoType bet))] s.

Definition cashout (sid : nat) (user : string) (s : Server) : Server :=
  let g := gameState s in
  match players g !! user with
  | None => socket_emit sid "error" [("message", VStr "No bet placed")] s
  | Some bet =>
      match cashedOut g !! user with
      | Some _ =>
          socket_emit sid "error" [("message", VStr "Already cashed out")] s
      | None =>
          let pay := Num.mul (cryptoAmount bet) (multiplier g) in
          let usd :=
            Num.mul pay
              (undef_to_num (price_of (cryptoPrices s) (cryptoType bet))) in
          match db s with
          | Some _ => await (CashoutCredit sid user bet pay usd) s
          | None => cashout_record sid user bet pay usd s
          end
      end
  end.

(** [io.on("connection")] *)
Definition connection (sid : nat) (s : Server) : Server :=
  let g := gameState s in
  let s :=
    if isActive g
    then socket_emit sid "roundStart"
           [("roundId", opt_str (roundId g));
            ("multiplier", VNum (multiplier g))] s
    else s in
  socket_emit sid "priceUpdate"
    [("prices", VPrices (BTC (cryptoPrices s)) (ETH (cryptoPrices s)))] s.

(** *** The database replies: the suspended handler goes on *)

Definition resume (t : Task) (throws : bool) (now : Z) (s : Server)
  : Server :=
  match db s with
  | None => s
  | Some d =>
      match t with
      | BetFindWallet c =>
          let found :=
            if throws then Thrown else Done (findOne d (bet_username c)) in
          match wallet_found (bet_username c) now found with
          | WalletReturn w => bet_checked c w s
          | WalletInsert w => await (BetInsertWallet c w) s
          end
      | BetInsertWallet c w =>
          if throws
          then bet_checked c (wallet_inserted (bet_username c) w Thrown) s
          else bet_checked c (wallet_inserted (bet_username c) w (Done tt))
                 (set_db (Some (insertOne d w)) s)
      | BetDebit c =>
          let s :=
            if throws then s
            else set_db (Some (updateOne d (bet_username c) (bet_cryptoType c)
                                 (SFopp (bet_cryptoAmount c)))) s in
          bet_record c s
      | CashoutCredit sid user bet pay usd =>
          let s :=
            if throws then s
            else set_db (Some (updateOne d user (cryptoType bet) pay)) s in
          cashout_record sid user bet pay usd s
      end
  end.

(** *** [GET /api/prices] *)

Definition getPrices (rid : nat) (s : Server) : Server :=
  respond rid
    (ok_response
       [("prices", VPrices (BTC (cryptoPrices s)) (ETH (cryptoPrices s)))]) s.

(** *** [POST /api/wallet/:username] *)

Record BalanceWithUSD := { amount : num; usdValue : num }.

(** the loop over [Object.entries(wallet.balances)] *)
Definition balancesWithUSD (p : Prices) (b : gmap string num)
  : gmap string BalanceWithUSD :=
  map_imap
    (fun k a =>
       Some {| amount := a;
               usdValue := Num.mul a (undef_to_num (price_of p k)) |}) b.

Record WalletReply := {
  reply_username : string;
  reply_balances : gmap string BalanceWithUSD }.

(** the route run to its end; [p] is [cryptoPrices] when the wallet comes
    back *)
Definition walletRoute (d : option Db) (p : Prices) (user : string) (now : Z)
  (find_throws insert_throws : bool) : WalletReply * option Db :=
  let '(w, d') := getOrCreateWallet d user now find_throws insert_throws in
  ({| reply_username := user;
      reply_balances := balancesWithUSD p (balances w) |}, d').

(** *** [POST /api/login] *)

Record User := {
  user_username : string;
  user_password : string;
  user_balance : num;
  user_createdAt : Z }.

Record LoginBody := {
  login_username : option string;
  login_password : option string }.

Definition findUser (us : list User) (name : string) : option User :=
  List.find (fun u => String.eqb (user_username u) name) us.

Definition login_ok (u : User) : Response :=
  ok_response
    [("username", VStr (user_username u)); ("balance", VNum (user_balance u))].

Definition login_error (code : Z) (msg : string) : Response :=
  {| status := code; success := false; error := Some msg; data := [] |}.

(** the route run to its end against the collection [users], [None] when
    there is no database ([db.collection] then throws); [thrown] is the
    message of what is thrown *)
Definition login (users : option (list User)) (b : LoginBody) (now : Z)
  (find_throws insert_throws : bool) (thrown : string)
  : Response * option (list User) :=
  match login_username b, login_password b with
  | Some name, Some pw =>
      if String.eqb name "" || String.eqb pw ""
      then (login_error 400 "Username and password required", users)
      else
        match users with
        | None => (login_error 500 thrown, users)
        | Some us =>
            if find_throws then (login_error 500 thrown, users)
            else
              match findUser us name with
              | None =>
                  let u := {| user_username := name; user_password := pw;
                              user_balance := Num.of_Z 1000;
                              user_createdAt := now |} in
                  if insert_throws then (login_error 500 thrown, users)
                  else (login_ok u, Some (us ++ [u]))
              | Some u =>
                  if String.eqb (user_password u) pw then (login_ok u, users)
                  else (login_error 401 "Invalid password", users)
              end
        end
  | _, _ => (login_error 400 "Username and password required", users)
  end.

(** ** The event loop *)

Definition Timer_eqb (a b : Timer) : bool :=
  match a, b with
  | TUpdateMultiplier, TUpdateMultiplier
  | TCrashDisplay, TCrashDisplay
  | TBettingWindow, TBettingWindow => true
  | _, _ => false
  end.

Fixpoint clearTimer (t : Timer) (l : list Timer) : option (list Timer) :=
  match l with
  | [] => None
  | x :: r =>
      if Timer_eqb x t then Some r
      else match clearTimer t r with
           | Some r' => Some (x :: r')
           | None => None
           end
  end.

(** the macrotasks: the start of the game, the three timers, a price
    update, the two requests, a new socket, and a reply of the database *)
Inductive Label :=
| Boot (random : list Byte.byte) (c : Clock) (save_throws : bool)
| Tick (now : Z) (save_throws : bool)
| CrashDisplayOver
| BettingOver (random : list Byte.byte) (c : Clock) (save_throws : bool)
| PricesFetched (btc eth : num)
| PostBet (rid : nat) (b : BetBody)
| SocketCashout (sid : nat) (user : string)
| SocketConnect (sid : nat)
| DbReply (i : nat) (throws : bool) (now : Z).

Definition fires (t : Timer) (k : Server -> Server) (s : Server)
  : option Server :=
  match clearTimer t (timers s) with
  | Some r => Some (k (set_timers r s))
  | None => None
  end.

Definition step (l : Label) (s : Server) : option Server :=
  match l with
  | Boot random c save_throws =>
      if booted s then None
      else Some (startNewRound random c save_throws (set_booted true s))
  | Tick now save_throws =>
      fires TUpdateMultiplier (updateMultiplier now save_throws) s
  | CrashDisplayOver => fires TCrashDisplay openBetting s
  | BettingOver random c save_throws =>
      fires TBettingWindow (closeBetting random c save_throws) s
  | PricesFetched btc eth => Some (fetchCryptoPrices btc eth s)
  | PostBet rid b => Some (placeBet rid b s)
  | SocketCashout sid user => Some (cashout sid user s)
  | SocketConnect sid => Some (connection sid s)
  | DbReply i throws now =>
      match tasks s !! i with
      | Some t => Some (resume t throws now (set_tasks (delete i (tasks s)) s))
      | None => None
      end
  end.

Fixpoint run (ls : list Label) (s : Server) : option Server :=
  match ls with
  | [] => Some s
  | l :: r =>
      match step l s with
      | Some s' => run r s'
      | None => None
      end
  end.

(** [gameState] as the file declares it, the fallback prices, and the
    database that [connectDB] left ([None] when it could not connect) *)
Definition initialGameState : GameState :=
  {| isActive := false; roundId := None; startTime := None;
     multiplier := Num.of_Z 1; crashPoint := None; seed := None;
     players := ∅; cashedOut := ∅; isBettingOpen := false |}.

Definition initial (d : option Db) : Server :=
  {| gameState := initialGameState;
     cryptoPrices := {| BTC := Num.of_Z 65000; ETH := Num.of_Z 3500 |};
     db := d; timers := []; tasks := []; emitted := []; responses := [];
     booted := false |}.

Inductive reachable (d : option Db) : Server -> Prop :=
| reachable_initial : reachable d (initial d)
| reachable_step s l s' :
    reachable d s -> step l s = Some s' -> reachable d s'.

(** the phase of the round, read off the two flags *)
Inductive Phase := BETTING_OPEN | ACTIVE | CRASHED.

Definition phase (g : GameState) : Phase :=
  if isActive g then ACTIVE
  else if isBettingOpen g then BETTING_OPEN
  else CRASHED.

(** ** Runs of the server used below *)

Definition alice : string := "alice".

Definition zero_entropy : list Byte.byte := repeat Byte.x00 32.

(** a seed whose digest starts with [ffffffff] *)
Definition seed_ff : string :=
  "00000000000000000000000000000000000000000000000000000001bc6e61f3".

Definition clock (t : Z) : Clock := {| t_id := t; t_start := t; t_tick := t |}.

Definition bet10 (user : string) : BetBody :=
  {| body_username := Some user;
     body_usdAmount := Some (JNumber (Num.of_Z 10));
     body_cryptoType := Some "BTC"%string |}.

Definition empty_db : Db := {| wallets := []; rounds := [] |}.

(** the first round, crashed at 1.6x (its crash point is 1.59x), with the
    display timer running *)
Definition first_crash : list Label :=
  [Boot zero_entropy (clock 1000) false; Tick 7000 false].

(** then the betting window, in which alice bets 10 dollars in BTC *)
Definition alice_bets : list Label :=
  first_crash ++ [CrashDisplayOver; PostBet 1 (bet10 alice)].

(** the same with a database: the wallet is looked up, created, debited *)
Definition alice_bets_db : list Label :=
  alice_bets ++
  [DbReply 0 false 13000; DbReply 0 false 13001; DbReply 0 false 13002].

(** then the second round, running at 1.01x *)
Definition second_round : list Label :=
  [BettingOver zero_entropy (clock 22000) false; Tick 22100 false].

(** and its crash at 1.6x *)
Definition second_crash : list Label :=
  second_round ++ [Tick 28000 false].

Definition alice_bet : Bet :=
  {| usdAmount := JNumber (Num.of_Z 10);
     cryptoAmount := Num.div (Num.of_Z 10) (Num.of_Z 65000);
     cryptoType := "BTC";
     priceAtTime := Some (Num.of_Z 65000) |}.

Definition alice_ctx : BetCtx :=
  {| bet_request := 1; bet_username := alice;
     bet_usdAmount := JNumber (Num.of_Z 10);
     bet_cryptoType := "BTC";
     bet_cryptoAmount := Num.div (Num.of_Z 10) (Num.of_Z 65000) |}.

(** the state a run leaves, the initial one when a label is not enabled *)
Definition after (d : option Db) (ls : list Label) : Server :=
  default (initial d) (run ls (initial d)).

(** the database of a state that has one *)
Definition db_of (s : Server) : Db := default empty_db (db s).

(** the balance of a wallet of the database *)
Definition stored_balance (s : Server) (user k : string) : option num :=
  d ← db s; w ← findOne d user; balances w !! k.

(** the events of a given name in the log *)
Definition events_named (ev : string) (s : Server) : list Emit :=
  filter (fun e => emit_event e = ev) (emitted s).

(** ** Predicates on states *)

(** an event whose payload has neither a [seedHash] nor a [seed] field *)
Definition quiet (e : Emit) : Prop :=
  has_field "seedHash" (emit_payload e) = false
  /\ has_field "seed" (emit_payload e) = false.

Definition Quiet (s : Server) : Prop := Forall quiet (emitted s).

(** the response to a bet that was accepted *)
Definition bet_accepted (c : BetCtx) (r : option string) : Response :=
  ok_response
    [("roundId", opt_str r);
     ("usdAmount", json_value (bet_usdAmount c));
     ("cryptoAmount", VNum (bet_cryptoAmount c));
     ("cryptoType", VStr (bet_cryptoType c))].

(** a body that passes the three validations of [POST /api/bet]: the three
    fields are truthy, the amount is neither below 1 nor above 1000 as
    JavaScript compares it (a value whose number is NaN passes both tests),
    and the asset is BTC or ETH *)
Definition valid_body (b : BetBody) (user : string) (usd : JsonValue)
  (ct : string) : Prop :=
  b = {| body_username := Some user; body_usdAmount := Some usd;
         body_cryptoType := Some ct |}
  /\ user <> ""%string
  /\ json_truthy usd = true
  /\ Num.lt (json_number usd) (Num.of_Z 1) = false
  /\ Num.gt (json_number usd) (Num.of_Z 1000) = false
  /\ (ct = "BTC"%string \/ ct = "ETH"%string).

(** the fields of [gameState] other than the two maps are the same *)
Definition same_round (g g' : GameState) : Prop :=
  isActive g' = isActive g
  /\ roundId g' = roundId g
  /\ startTime g' = startTime g
  /\ multiplier g' = multiplier g
  /\ crashPoint g' = crashPoint g
  /\ seed g' = seed g
  /\ isBettingOpen g' = isBettingOpen g.

(** the labels that come from clients, the price feed and the database *)
Definition is_request (l : Label) : bool :=
  match l with
  | PricesFetched _ _ | PostBet _ _ | SocketCashout _ _ | SocketConnect _
  | DbReply _ _ _ => true
  | _ => false
  end.

(** the pending timer and the flags agree: nothing before the start, then
    exactly one timer, which tells the phase; a started game has a crash
    point *)
Definition coherent (s : Server) : Prop :=
  let g := gameState s in
  match timers s with
  | [] => booted s = false /\ isActive g = false /\ isBettingOpen g = false
  | [TUpdateMultiplier] =>
      booted s = true /\ isActive g = true /\ isBettingOpen g = false
      /\ is_Some (crashPoint g)
  | [TCrashDisplay] =>
      booted s = true /\ isActive g = false /\ isBettingOpen g = false
      /\ is_Some (crashPoint g)
  | [TBettingWindow] =>
      booted s = true /\ isActive g = false /\ isBettingOpen g = true
      /\ is_Some (crashPoint g)
  | _ => False
  end.

(** outside an active round the stored multiplier is at or above the
    crash point ([null] counting as 0) *)
Definition settled (s : Server) : Prop :=
  isActive (gameState s) = false ->
  Num.ge (multiplier (gameState s)) (null_to_num (crashPoint (gameState s)))
  = true.

(** what the timers of the round leave alone: the two maps, the suspended
    handlers, the responses, the prices and the wallets *)
Definition keeps_maps (s s' : Server) : Prop :=
  players (gameState s') = players (gameState s)
  /\ cashedOut (gameState s') = cashedOut (gameState s)
  /\ tasks s' = tasks s
  /\ responses s' = responses s
  /\ cryptoPrices s' = cryptoPrices s
  /\ wallets <$> db s' = wallets <$> db s.

(** every player who cashed out has a bet *)
Definition cashouts_have_bets (s : Server) : Prop :=
  dom (cashedOut (gameState s)) ⊆ dom (players (gameState s)).

(** the cashout that arrives in the display window and whose credit is
    still awaited when the window ends *)
Definition late_cashout : list Label :=
  alice_bets_db ++ second_crash ++
  [SocketCashout 7 alice; CrashDisplayOver; DbReply 0 false 33001].

(** ** Numbers that are not NaN *)

(** a zero, an infinity or a finite number of the sign [sx] *)
Inductive signed (sx : bool) : spec_float -> Prop :=
| signed_zero : signed sx (S754_zero sx)
| signed_infinity : signed sx (S754_infinity sx)
| signed_finite m e : signed sx (S754_finite sx m e).

Definition defined (x : num) : Prop := x <> S754_nan.

(** the first four bytes of the digest, as [generateCrashPoint] reads them *)
Definition first_word (seed : string) : Z :=
  Sha256.h0 (Sha256.digest (Sha256.bytes_of_string seed)) mod 2 ^ 32.

(** ** Shapes of what the handlers do *)

(** a bet context as [POST /api/bet] builds it from a valid body *)
Definition ctx_of (rid : nat) (b : BetBody) (s : Server) (c : BetCtx) : Prop :=
  bet_request c = rid
  /\ valid_body b (bet_username c) (bet_usdAmount c) (bet_cryptoType c)
  /\ bet_cryptoAmount c
     = Num.div (json_number (bet_usdAmount c))
         (undef_to_num (price_of (cryptoPrices s) (bet_cryptoType c))).

(** the amount and the asset of a context passed the validation *)
Definition good_ctx (c : BetCtx) : Prop :=
  bet_username c <> ""%string
  /\ json_truthy (bet_usdAmount c) = true
  /\ Num.lt (json_number (bet_usdAmount c)) (Num.of_Z 1) = false
  /\ Num.gt (json_number (bet_usdAmount c)) (Num.of_Z 1000) = false
  /\ (bet_cryptoType c = "BTC"%string \/ bet_cryptoType c = "ETH"%string).

Definition good_task (t : Task) : Prop :=
  match t with
  | BetFindWallet c | BetInsertWallet c _ | BetDebit c => good_ctx c
  | CashoutCredit _ _ _ _ _ => True
  end.

(** a stored bet: its amount passed the three tests of the handler, it is
    in BTC or ETH, and it has the price it was stored at *)
Definition good_bet (b : Bet) : Prop :=
  json_truthy (usdAmount b) = true
  /\ Num.lt (json_number (usdAmount b)) (Num.of_Z 1) = false
  /\ Num.gt (json_number (usdAmount b)) (Num.of_Z 1000) = false
  /\ (cryptoType b = "BTC"%string \/ cryptoType b = "ETH"%string)
  /\ is_Some (priceAtTime b).

Definition bets_valid (s : Server) : Prop :=
  (forall user bet, players (gameState s) !! user = Some bet -> good_bet bet)
  /\ Forall good_task (tasks s).

(** the state [s], or [s] after a write to the database *)
Definition written (s s0 : Server) : Prop :=
  s0 = s \/ exists d, s0 = set_db (Some d) s.

(** the bet context of a suspended bet *)
Definition task_ctx (t : Task) : option BetCtx :=
  match t with
  | BetFindWallet c | BetInsertWallet c _ | BetDebit c => Some c
  | CashoutCredit _ _ _ _ _ => None
  end.

(** without a database nothing is ever awaited *)
Definition no_db (s : Server) : Prop :=
  db s = None /\ tasks s = [] /\ cashouts_have_bets s.

(** an active round has not reached its crash point *)
Definition running (s : Server) : Prop :=
  isActive (gameState s) = true ->
  Num.ge (multiplier (gameState s)) (null_to_num (crashPoint (gameState s)))
  = false.

Definition crash_in_range (s : Server) : Prop :=
  forall cp, crashPoint (gameState s) = Some cp ->
  Num.le (Num.dec 101 2) cp = true /\ Num.le cp (Num.of_Z 100) = true.

(** the characters of a string are digits of [parseInt(_, 16)] *)
Fixpoint all_hex (s : string) : Prop :=
  match s with
  | EmptyString => True
  | String c r => is_Some (Hex.digit_value c) /\ all_hex r
  end.

(** the amount of a stored bet is its dollars over its stored price *)
Definition priced (b : Bet) : Prop :=
  exists p, priceAtTime b = Some p
            /\ cryptoAmount b = Num.div (json_number (usdAmount b)) p.

Definition bets_priced (s : Server) : Prop :=
  db s = None /\ tasks s = []
  /\ forall user bet, players (gameState s) !! user = Some bet -> priced bet.

Example sha256_abc :
  Sha256.sha256_hex "abc" =
  "ba7816bf8f01cfea414140de5dae2223b00361a396177a9cb410ff61f20015ad"%string.
Proof. vm_compute. reflexivity. Qed.

Example sha256_empty :
  Sha256.sha256_hex "" =
  "e3b0c44298fc1c149afbf4c8996fb92427ae41e4649b934ca495991b7852b855"%string.
Proof. vm_compute. reflexivity. Qed.

Example sha256_two_blocks :
  Sha256.sha256_hex
    "0000000000000000000000000000000000000000000000000000000000000000" =
  "60e05bd1b195af2f94112fa7197a5c88289058840ce7c6df9693756bc6250f55"%string.
Proof. vm_compute. reflexivity. Qed.

(** ** Runs *)

Lemma run_app ls1 ls2 s :
  run (ls1 ++ ls2) s = run ls1 s ≫= run ls2.
Proof.
  revert s. induction ls1 as [|l ls1 IH]; intros s; [reflexivity|].
  cbn [run app]. destruct (step l s); [apply IH|reflexivity].
Qed.

Lemma run_reachable d ls s s' :
  reachable d s -> run ls s = Some s' -> reachable d s'.
Proof.
  revert s. induction ls as [|l ls IH]; intros s Hs Hrun; cbn [run] in Hrun.
  - congruence.
  - destruct (step l s) as [s1|] eqn:Hstep; [|discriminate].
    eapply IH; [|exact Hrun]. eapply reachable_step; eassumption.
Qed.

(** ** The wallet *)

(** C9. [getOrCreateWallet] always returns a wallet: without a database it
    is the default one, and when [findOne] or [insertOne] throws it is the
    default one again, whose balances are 0.01 BTC and 1.0 ETH. *)
Theorem getOrCreateWallet_total :
  (forall user now ft it,
      getOrCreateWallet None user now ft it = (default_wallet user, None))
  /\ (forall store user now it,
         getOrCreateWallet (Some store) user now true it
         = (default_wallet user, Some store))
  /\ (forall store user now,
         findOne store user = None ->
         getOrCreateWallet (Some store) user now false true
         = (default_wallet user, Some store))
  /\ (forall user,
         username (default_wallet user) = user
         /\ balances (default_wallet user) !! "BTC" = Some (Num.dec 1 2)
         /\ balances (default_wallet user) !! "ETH" = Some (Num.of_Z 1)).
Proof.
  split; [reflexivity|].
  split; [reflexivity|].
  split.
  - intros store user now Hfind. unfold getOrCreateWallet.
    rewrite Hfind. reflexivity.
  - intros user. split; [reflexivity|].
    split; vm_compute; reflexivity.
Qed.

(** ** Cashing out *)

(** What the handler records for a player, once the bet is found and no
    cashout is there yet. *)
Lemma cashout_record_lookup sid user bet pay usd s :
  cashedOut (gameState (cashout_record sid user bet pay usd s)) !! user
  = Some {| cashout_multiplier := multiplier (gameState s);
            payout := pay; usdPayout := usd |}.
Proof. cbn. apply lookup_insert_eq. Qed.

(** C6. A cashout that passes the checks pays
    [bet.cryptoAmount * gameState.multiplier], the multiplier being read when
    the request is processed, and its dollar value is
    [payout * cryptoPrices[bet.cryptoType]], the price of that moment and not
    the bet's [priceAtTime]. Without a database the record is made at once;
    with one, the two amounts wait in the suspended handler and are recorded
    unchanged when the database replies, whatever happened in between. *)
Theorem cashout_payout_law s sid user bet
  (Hbet : players (gameState s) !! user = Some bet)
  (Hfresh : cashedOut (gameState s) !! user = None) :
  let pay := Num.mul (cryptoAmount bet) (multiplier (gameState s)) in
  let usd :=
    Num.mul pay (undef_to_num (price_of (cryptoPrices s) (cryptoType bet))) in
  (db s = None ->
   cashedOut (gameState (cashout sid user s)) !! user
   = Some {| cashout_multiplier := multiplier (gameState s);
             payout := pay; usdPayout := usd |})
  /\ (forall d, db s = Some d ->
        cashout sid user s = await (CashoutCredit sid user bet pay usd) s
        /\ forall s' throws now,
            let r := resume (CashoutCredit sid user bet pay usd) throws now s' in
            is_Some (db s') ->
            cashedOut (gameState r) !! user
            = Some {| cashout_multiplier := multiplier (gameState s');
                      payout := pay; usdPayout := usd |}).
Proof.
  intros pay usd. split.
  - intros Hdb. unfold cashout. rewrite Hbet, Hfresh, Hdb.
    apply cashout_record_lookup.
  - intros d Hdb. split.
    + unfold cashout. rewrite Hbet, Hfresh, Hdb. reflexivity.
    + intros s' throws now r [d' Hd']. subst r. unfold resume. rewrite Hd'.
      destruct throws; rewrite cashout_record_lookup; reflexivity.
Qed.

(** ** Tactics for the operations of the server *)

(** projections of the two records through the field updates *)
Ltac srv :=
  cbn [gameState cryptoPrices db timers tasks emitted responses booted
       set_gameState set_cryptoPrices set_db set_timers set_tasks set_emitted
       set_responses set_booted
       isActive roundId startTime multiplier crashPoint seed players cashedOut
       isBettingOpen
       set_isActive set_multiplier set_players set_cashedOut set_isBettingOpen
       upd io_emit socket_emit setTimeout respond await] in *.

(** ** What the broadcasts carry *)

Ltac quiet_tac :=
  unfold Quiet in *; intros;
  repeat case_match; srv;
  rewrite ?Forall_app, ?Forall_cons, ?Forall_nil;
  repeat split; auto; try reflexivity.

Ltac quiet_op :=
  lazymatch goal with
  | |- Quiet (crashGame _ _) => unfold crashGame
  | |- Quiet (bet_record _ _) => unfold bet_record
  | |- Quiet (cashout_record _ _ _ _ _ _) => unfold cashout_record
  | |- _ => idtac
  end; quiet_tac.

Lemma quiet_crashGame st s : Quiet s -> Quiet (crashGame st s).
Proof. intros. quiet_op. Qed.

Lemma quiet_updateMultiplier now st s :
  Quiet s -> Quiet (updateMultiplier now st s).
Proof.
  unfold updateMultiplier. intros. repeat case_match; [assumption | |].
  - apply quiet_crashGame. quiet_tac.
  - quiet_tac.
Qed.

Lemma quiet_startNewRound r c st s :
  Quiet s -> Quiet (startNewRound r c st s).
Proof.
  unfold startNewRound, roundStart. intros.
  apply quiet_updateMultiplier. quiet_tac.
Qed.

Lemma quiet_bet_record c s : Quiet s -> Quiet (bet_record c s).
Proof. intros. quiet_op. Qed.

Lemma quiet_bet_checked c w s : Quiet s -> Quiet (bet_checked c w s).
Proof.
  unfold bet_checked. intros.
  repeat case_match; [quiet_tac | quiet_tac | by apply quiet_bet_record].
Qed.

Lemma quiet_placeBet rid b s : Quiet s -> Quiet (placeBet rid b s).
Proof.
  unfold placeBet. intros.
  repeat case_match;
    lazymatch goal with
    | |- Quiet (bet_checked _ _ _) => by apply quiet_bet_checked
    | |- _ => quiet_tac
    end.
Qed.

Lemma quiet_cashout_record sid u b p usd s :
  Quiet s -> Quiet (cashout_record sid u b p usd s).
Proof. intros. quiet_op. Qed.

Lemma quiet_cashout sid u s : Quiet s -> Quiet (cashout sid u s).
Proof.
  unfold cashout. intros.
  repeat case_match;
    lazymatch goal with
    | |- Quiet (cashout_record _ _ _ _ _ _) => by apply quiet_cashout_record
    | |- _ => quiet_tac
    end.
Qed.

Lemma quiet_resume t th now s : Quiet s -> Quiet (resume t th now s).
Proof.
  unfold resume, wallet_found. intros.
  repeat case_match;
    lazymatch goal with
    | |- Quiet (bet_checked _ _ _) => apply quiet_bet_checked; quiet_tac
    | |- Quiet (bet_record _ _) => apply quiet_bet_record; quiet_tac
    | |- Quiet (cashout_record _ _ _ _ _ _) =>
        apply quiet_cashout_record; quiet_tac
    | |- _ => quiet_tac
    end.
Qed.

Lemma quiet_step l s s' : step l s = Some s' -> Quiet s -> Quiet s'.
Proof.
  intros Hstep Hq.
  destruct l; cbn [step] in Hstep; unfold fires in Hstep;
    repeat case_match; simplify_eq;
    lazymatch goal with
    | |- Quiet (startNewRound _ _ _ _) => apply quiet_startNewRound
    | |- Quiet (updateMultiplier _ _ _) => apply quiet_updateMultiplier
    | |- Quiet (closeBetting _ _ _ _) => apply quiet_startNewRound
    | |- Quiet (placeBet _ _ _) => apply quiet_placeBet
    | |- Quiet (cashout _ _ _) => apply quiet_cashout
    | |- Quiet (resume _ _ _ _) => apply quiet_resume
    | |- _ => unfold openBetting, fetchCryptoPrices, connection
    end; quiet_tac.
Qed.

(** C3 (the code does not do this). No event the server ever emits has a
    [seedHash] or a [seed] field: [roundStart] is sent with [roundId] and
    [multiplier] only, [roundCrash] with [roundId] and [crashPoint] only.
    The log of the first round, from its start to its crash, shows both. *)
Theorem no_event_carries_the_seed :
  (forall d s, reachable d s -> Quiet s)
  /\ reachable None (after None first_crash)
  /\ events_named "roundStart" (after None first_crash)
     = [ Build_Emit ToAll "roundStart"
           [("roundId", VStr "round_1000");
            ("multiplier", VNum (Num.of_Z 1))] ]
  /\ events_named "roundCrash" (after None first_crash)
     = [ Build_Emit ToAll "roundCrash"
           [("roundId", VStr "round_1000");
            ("crashPoint", VNum (crashPointOf (bytes_to_hex zero_entropy)))] ].
Proof.
  split; [|split; [|split]].
  - intros d s Hs. induction Hs as [|s l s' _ IH Hstep].
    + constructor.
    + eapply quiet_step; eassumption.
  - apply (run_reachable None first_crash (initial None));
      [constructor | vm_compute; reflexivity].
  - vm_compute. reflexivity.
  - vm_compute. reflexivity.
Qed.

(** ** Cashing out after the crash *)

(** C1 (the code does not do this). The handler of [cashout] never reads
    [isActive]. In the run below alice bets in the betting window, the round
    starts and crashes, and her cashout arrives in the display window: it is
    recorded at the final multiplier, which is at or above the crash point,
    her wallet is credited and she is sent [cashoutSuccess], no [error]. *)
Theorem cashout_after_crash_is_paid :
  let s := after (Some empty_db) (alice_bets_db ++ second_crash) in
  let pay := Num.mul (cryptoAmount alice_bet) (multiplier (gameState s)) in
  run (alice_bets_db ++ second_crash) (initial (Some empty_db)) = Some s
  /\ phase (gameState s) = CRASHED
  /\ Num.ge (multiplier (gameState s)) (null_to_num (crashPoint (gameState s)))
     = true
  /\ exists s',
      run [SocketCashout 7 alice; DbReply 0 false 28500] s = Some s'
      /\ cashedOut (gameState s') !! alice
         = Some {| cashout_multiplier := multiplier (gameState s);
                   payout := pay;
                   usdPayout := Num.mul pay (Num.of_Z 65000) |}
      /\ (exists before,
             stored_balance s alice "BTC" = Some before
             /\ stored_balance s' alice "BTC" = Some (Num.add before pay)
             /\ Num.lt before (Num.add before pay) = true)
      /\ events_named "error" s' = []
      /\ emit_to <$> events_named "cashoutSuccess" s' = [ToSocket 7].
Proof.
  cbv zeta. split; [vm_compute; reflexivity|].
  split; [vm_compute; reflexivity|].
  split; [vm_compute; reflexivity|].
  eexists. split; [vm_compute; reflexivity|].
  split; [vm_compute; reflexivity|].
  split.
  - eexists. split; [vm_compute; reflexivity|].
    split; vm_compute; reflexivity.
  - split; vm_compute; reflexivity.
Qed.

(** ** Placing a bet *)

(** C2 (the code does not do this). The handler tests [isActive] and never
    reads [isBettingOpen]. In the display window after the first crash the
    round is neither active nor open for bets, and yet a bet is accepted, the
    wallet debited and the bet stored. *)
Theorem bet_accepted_in_crash_display :
  let s := after (Some empty_db) first_crash in
  run first_crash (initial (Some empty_db)) = Some s
  /\ phase (gameState s) = CRASHED
  /\ exists s',
      run [PostBet 1 (bet10 alice); DbReply 0 false 7100;
           DbReply 0 false 7101; DbReply 0 false 7102] s = Some s'
      /\ players (gameState s') !! alice = Some alice_bet
      /\ responses s' = [(1%nat, bet_accepted alice_ctx (Some "round_1000"%string))]
      /\ stored_balance s' alice "BTC"
         = Some (Num.add (Num.dec 1 2) (SFopp (cryptoAmount alice_bet))).
Proof.
  cbv zeta. split; [vm_compute; reflexivity|].
  split; [vm_compute; reflexivity|].
  eexists. split; [vm_compute; reflexivity|].
  split; [vm_compute; reflexivity|].
  split; vm_compute; reflexivity.
Qed.

(** The part of the phase test that the handler has: a request that
    arrives while the round is active is answered with status 400 and
    nothing else changes. The message is "Betting is closed" when the body
    is valid and the player has no bet yet; an earlier check answers
    otherwise. *)
Lemma placeBet_rejected_while_active s rid b
  (Hactive : isActive (gameState s) = true) :
  exists msg,
    placeBet rid b s = respond rid (bad_request msg) s
    /\ forall user usd ct,
        valid_body b user usd ct ->
        players (gameState s) !! user = None ->
        msg = "Betting is closed"%string.
Proof.
  unfold placeBet. rewrite Hactive.
  destruct b as [[user|] [usd|] [ct|]]; cbn [body_username body_usdAmount body_cryptoType];
    try (eexists; split; [reflexivity|];
         intros ??? (Hb & _); discriminate Hb).
  destruct (String.eqb user "" || negb (json_truthy usd) || String.eqb ct "")
    eqn:Hmiss.
  { eexists; split; [reflexivity|].
    intros u x k (Hb & Hu & Ht & _ & _ & Hk) _. simplify_eq.
    apply String.eqb_neq in Hu. rewrite Hu, Ht in Hmiss. cbn in Hmiss.
    destruct Hk; subst; discriminate Hmiss. }
  destruct (Num.lt (json_number usd) (Num.of_Z 1)
            || Num.gt (json_number usd) (Num.of_Z 1000)) eqn:Hrange.
  { eexists; split; [reflexivity|].
    intros u x k (Hb & _ & _ & Hlo & Hhi & _) _. simplify_eq.
    rewrite Hlo, Hhi in Hrange. discriminate Hrange. }
  destruct (negb (String.eqb ct "BTC" || String.eqb ct "ETH")) eqn:Hct.
  { eexists; split; [reflexivity|].
    intros u x k (Hb & _ & _ & _ & _ & Hk) _. simplify_eq.
    destruct Hk; subst; discriminate Hct. }
  destruct (players (gameState s) !! user) eqn:Hdup.
  { eexists; split; [reflexivity|].
    intros u x k (Hb & _) Hnone. simplify_eq. }
  eexists; split; [reflexivity|]. reflexivity.
Qed.

Lemma placeBet_rejected_while_active_witness :
  isActive (gameState (after None (alice_bets ++ second_round))) = true
  /\ exists msg,
      placeBet 2 (bet10 "bob") (after None (alice_bets ++ second_round))
      = respond 2 (bad_request msg) (after None (alice_bets ++ second_round))
      /\ forall user usd ct,
          valid_body (bet10 "bob") user usd ct ->
          players (gameState (after None (alice_bets ++ second_round))) !! user
          = None ->
          msg = "Betting is closed"%string.
Proof.
  split; [vm_compute; reflexivity|].
  apply (placeBet_rejected_while_active
           (after None (alice_bets ++ second_round)) 2 (bet10 "bob")).
  vm_compute; reflexivity.
Defined.

(** The bet taken in the display window is lost: when the window ends
    [players] is replaced, while the wallet stays debited. *)
Lemma crash_display_bet_is_lost :
  let tr := first_crash ++
            [PostBet 1 (bet10 alice); DbReply 0 false 7100;
             DbReply 0 false 7101; DbReply 0 false 7102; CrashDisplayOver] in
  let s := after (Some empty_db) tr in
  run tr (initial (Some empty_db)) = Some s
  /\ phase (gameState s) = BETTING_OPEN
  /\ players (gameState s) !! alice = None
  /\ stored_balance s alice "BTC"
     = Some (Num.add (Num.dec 1 2) (SFopp (cryptoAmount alice_bet))).
Proof.
  cbv zeta. split; [vm_compute; reflexivity|].
  split; [vm_compute; reflexivity|].
  split; vm_compute; reflexivity.
Qed.

(** With a database the phase is tested before the wallet is awaited: a
    bet sent at the end of the betting window is stored after the round has
    started. *)
Lemma bet_stored_while_round_active :
  let tr := alice_bets ++ [BettingOver zero_entropy (clock 22000) false] in
  let s := after (Some empty_db) tr in
  run tr (initial (Some empty_db)) = Some s
  /\ phase (gameState s) = ACTIVE
  /\ players (gameState s) !! alice = None
  /\ exists s',
      run [DbReply 0 false 22010; DbReply 0 false 22020; DbReply 0 false 22030] s
      = Some s'
      /\ phase (gameState s') = ACTIVE
      /\ players (gameState s') !! alice = Some alice_bet.
Proof.
  cbv zeta. split; [vm_compute; reflexivity|].
  split; [vm_compute; reflexivity|].
  split; [vm_compute; reflexivity|].
  eexists. split; [vm_compute; reflexivity|].
  split; vm_compute; reflexivity.
Qed.

(** C4, as stated, fails: alice's wallet is found and created, the debit
    throws, and the bet is stored all the same and answered with success,
    while the stored balance is still 0.01 BTC. *)
Lemma bet_recorded_when_debit_throws :
  let s := after (Some empty_db) alice_bets in
  run alice_bets (initial (Some empty_db)) = Some s
  /\ exists s',
      run [DbReply 0 false 13000; DbReply 0 false 13001; DbReply 0 true 13002] s
      = Some s'
      /\ players (gameState s) !! alice = None
      /\ players (gameState s') !! alice = Some alice_bet
      /\ responses s' = [(1%nat, bet_accepted alice_ctx (Some "round_1000"%string))]
      /\ stored_balance s' alice "BTC" = Some (Num.dec 1 2).
Proof.
  cbv zeta. split; [vm_compute; reflexivity|].
  eexists. split; [vm_compute; reflexivity|].
  split; [vm_compute; reflexivity|].
  split; [vm_compute; reflexivity|].
  split; vm_compute; reflexivity.
Qed.

(** C4, amended. When the debit throws, the handler logs the error and
    goes on as if it had succeeded: the database is left as it was, the bet
    enters [players], [playerBet] is broadcast to all and the request is
    answered with success. *)
Theorem failed_debit_still_records_bet s c now d
  (Hdb : db s = Some d) :
  let s' := resume (BetDebit c) true now s in
  db s' = Some d
  /\ players (gameState s')
     = <[bet_username c :=
           {| usdAmount := bet_usdAmount c;
              cryptoAmount := bet_cryptoAmount c;
              cryptoType := bet_cryptoType c;
              priceAtTime := price_of (cryptoPrices s) (bet_cryptoType c) |}]>
         (players (gameState s))
  /\ emitted s'
     = emitted s
       ++ [Build_Emit ToAll "playerBet"
             [("username", VStr (bet_username c));
              ("usdAmount", json_value (bet_usdAmount c));
              ("cryptoType", VStr (bet_cryptoType c));
              ("roundId", opt_str (roundId (gameState s)))]]
  /\ responses s'
     = responses s ++ [(bet_request c, bet_accepted c (roundId (gameState s)))]
  /\ status (bet_accepted c (roundId (gameState s))) = 200
  /\ success (bet_accepted c (roundId (gameState s))) = true.
Proof.
  cbv zeta. unfold resume. rewrite Hdb. unfold bet_record. srv.
  rewrite Hdb. repeat split.
Qed.

Lemma failed_debit_still_records_bet_witness :
  db (after (Some empty_db) alice_bets)
  = Some (db_of (after (Some empty_db) alice_bets))
  /\ let s' := resume (BetDebit alice_ctx) true 13002
                 (after (Some empty_db) alice_bets) in
     db s' = Some (db_of (after (Some empty_db) alice_bets))
     /\ players (gameState s')
        = <[bet_username alice_ctx :=
              {| usdAmount := bet_usdAmount alice_ctx;
                 cryptoAmount := bet_cryptoAmount alice_ctx;
                 cryptoType := bet_cryptoType alice_ctx;
                 priceAtTime :=
                   price_of (cryptoPrices (after (Some empty_db) alice_bets))
                     (bet_cryptoType alice_ctx) |}]>
            (players (gameState (after (Some empty_db) alice_bets)))
     /\ emitted s'
        = emitted (after (Some empty_db) alice_bets)
          ++ [Build_Emit ToAll "playerBet"
                [("username", VStr (bet_username alice_ctx));
                 ("usdAmount", json_value (bet_usdAmount alice_ctx));
                 ("cryptoType", VStr (bet_cryptoType alice_ctx));
                 ("roundId",
                  opt_str (roundId (gameState (after (Some empty_db) alice_bets))))]]
     /\ responses s'
        = responses (after (Some empty_db) alice_bets)
          ++ [(bet_request alice_ctx,
               bet_accepted alice_ctx
                 (roundId (gameState (after (Some empty_db) alice_bets))))]
     /\ status
          (bet_accepted alice_ctx
             (roundId (gameState (after (Some empty_db) alice_bets)))) = 200
     /\ success
          (bet_accepted alice_ctx
             (roundId (gameState (after (Some empty_db) alice_bets)))) = true.
Proof.
  split; [vm_compute; reflexivity|].
  apply (failed_debit_still_records_bet
           (after (Some empty_db) alice_bets) alice_ctx 13002
           (db_of (after (Some empty_db) alice_bets))).
  vm_compute; reflexivity.
Defined.

Lemma cashout_payout_law_witness :
  players (gameState (after None (alice_bets ++ second_round))) !! alice
  = Some alice_bet
  /\ cashedOut (gameState (after None (alice_bets ++ second_round))) !! alice
     = None
  /\ let s := after None (alice_bets ++ second_round) in
     let pay := Num.mul (cryptoAmount alice_bet) (multiplier (gameState s)) in
     let usd :=
       Num.mul pay
         (undef_to_num (price_of (cryptoPrices s) (cryptoType alice_bet))) in
     (db s = None ->
      cashedOut (gameState (cashout 7 alice s)) !! alice
      = Some {| cashout_multiplier := multiplier (gameState s);
                payout := pay; usdPayout := usd |})
     /\ (forall d, db s = Some d ->
           cashout 7 alice s = await (CashoutCredit 7 alice alice_bet pay usd) s
           /\ forall s' throws now,
               let r :=
                 resume (CashoutCredit 7 alice alice_bet pay usd) throws now s' in
               is_Some (db s') ->
               cashedOut (gameState r) !! alice
               = Some {| cashout_multiplier := multiplier (gameState s');
                         payout := pay; usdPayout := usd |}).
Proof.
  split; [vm_compute; reflexivity|].
  split; [vm_compute; reflexivity|].
  apply (cashout_payout_law (after None (alice_bets ++ second_round)) 7 alice
           alice_bet); vm_compute; reflexivity.
Defined.

(** ** What a request leaves alone *)

Ltac frame_tac :=
  intros; repeat case_match; srv; repeat split; auto.

Lemma placeBet_same_round rid b s :
  same_round (gameState s) (gameState (placeBet rid b s))
  /\ timers (placeBet rid b s) = timers s
  /\ booted (placeBet rid b s) = booted s.
Proof. unfold placeBet, bet_checked, bet_record, same_round. frame_tac. Qed.

Lemma cashout_same_round sid user s :
  same_round (gameState s) (gameState (cashout sid user s))
  /\ timers (cashout sid user s) = timers s
  /\ booted (cashout sid user s) = booted s.
Proof. unfold cashout, cashout_record, same_round. frame_tac. Qed.

Lemma resume_same_round t th now s :
  same_round (gameState s) (gameState (resume t th now s))
  /\ timers (resume t th now s) = timers s
  /\ booted (resume t th now s) = booted s.
Proof.
  unfold resume, wallet_found, bet_checked, bet_record, cashout_record,
    same_round.
  frame_tac.
Qed.

Lemma request_same_round l s s' :
  is_request l = true -> step l s = Some s' ->
  same_round (gameState s) (gameState s')
  /\ timers s' = timers s /\ booted s' = booted s.
Proof.
  intros Hl Hstep. destruct l; try discriminate Hl; cbn [step] in Hstep.
  - simplify_eq. unfold fetchCryptoPrices, same_round. frame_tac.
  - simplify_eq. apply placeBet_same_round.
  - simplify_eq. apply cashout_same_round.
  - simplify_eq. unfold connection, same_round. frame_tac.
  - destruct (tasks s !! i) as [t|]; [|discriminate]. simplify_eq.
    apply (resume_same_round t throws now (set_tasks (delete i (tasks s)) s)).
Qed.

(** ** The phases of the round *)

Lemma coherent_same_round s s' :
  same_round (gameState s) (gameState s') ->
  timers s' = timers s -> booted s' = booted s ->
  coherent s -> coherent s'.
Proof.
  intros (Ha & _ & _ & _ & Hc & _ & Hb) Ht Hbo. unfold coherent.
  rewrite Ht, Hbo, Ha, Hb, Hc. auto.
Qed.

Lemma settled_same_round s s' :
  same_round (gameState s) (gameState s') -> settled s -> settled s'.
Proof.
  intros (Ha & _ & _ & Hm & Hc & _) Hs. unfold settled.
  rewrite Ha, Hm, Hc. exact Hs.
Qed.

(** [updateMultiplier] in an active round with no timer pending: the round
    goes on with the update timer, or it crashes with the display timer *)
Lemma updateMultiplier_sound now st s :
  timers s = [] -> booted s = true ->
  isActive (gameState s) = true -> isBettingOpen (gameState s) = false ->
  is_Some (crashPoint (gameState s)) ->
  coherent (updateMultiplier now st s) /\ settled (updateMultiplier now st s).
Proof.
  intros Ht Hb Ha Ho [cp Hcp].
  unfold updateMultiplier, crashGame, coherent, settled.
  rewrite Ha. cbn [negb].
  destruct (Num.ge _ _) eqn:Hge; srv; rewrite ?Hcp; srv.
  - rewrite Hcp in Hge.
    destruct (db s); [destruct st|]; srv; rewrite Ht; cbn [app];
      (split; [repeat split; eauto | intros _; rewrite Hcp; exact Hge]).
  - rewrite Ht. cbn [app]. split; [repeat split; eauto|]. congruence.
Qed.

Lemma startNewRound_sound r c st s :
  timers s = [] -> booted s = true ->
  coherent (startNewRound r c st s) /\ settled (startNewRound r c st s).
Proof.
  intros Ht Hb. unfold startNewRound, roundStart.
  apply updateMultiplier_sound; srv; auto;
    unfold newRound; destruct (generateCrashPoint r); srv; eauto.
Qed.

Lemma clearTimer_single t t' r :
  clearTimer t [t'] = Some r -> t' = t /\ r = [].
Proof.
  cbn [clearTimer]. destruct t, t'; cbn [Timer_eqb]; intros; simplify_eq; auto.
Qed.

Lemma coherent_timers s :
  coherent s -> timers s = [] \/ exists t, timers s = [t].
Proof.
  unfold coherent. destruct (timers s) as [|t [|t' r]]; eauto.
  destruct t; contradiction.
Qed.

Lemma sound_step l s s' :
  step l s = Some s' -> coherent s /\ settled s -> coherent s' /\ settled s'.
Proof.
  intros Hstep [Hc Hs].
  destruct (is_request l) eqn:Hl.
  { destruct (request_same_round l s s' Hl Hstep) as (Hr & Ht & Hb).
    split; [eapply coherent_same_round | eapply settled_same_round];
      eassumption. }
  destruct l; try discriminate Hl; cbn [step] in Hstep; unfold fires in Hstep.
  - destruct (booted s) eqn:Hb; [discriminate|]. simplify_eq.
    apply startNewRound_sound; [|reflexivity]. srv.
    destruct (coherent_timers s Hc) as [Ht|[t Ht]]; [exact Ht|].
    unfold coherent in Hc. rewrite Ht, Hb in Hc.
    destruct t; destruct Hc; discriminate.
  - destruct (clearTimer _ _) as [r|] eqn:Hclr; [|discriminate]. simplify_eq.
    destruct (coherent_timers s Hc) as [Ht|[t Ht]]; rewrite Ht in Hclr;
      [discriminate|].
    apply clearTimer_single in Hclr as [-> ->].
    unfold coherent in Hc. rewrite Ht in Hc. destruct Hc as (Hb & Ha & Ho & Hcp).
    apply updateMultiplier_sound; srv; auto.
  - destruct (clearTimer _ _) as [r|] eqn:Hclr; [|discriminate]. simplify_eq.
    destruct (coherent_timers s Hc) as [Ht|[t Ht]]; rewrite Ht in Hclr;
      [discriminate|].
    apply clearTimer_single in Hclr as [-> ->].
    unfold coherent in Hc. rewrite Ht in Hc. destruct Hc as (Hb & Ha & Ho & Hcp).
    unfold openBetting, coherent, settled. srv. cbn [app].
    split; [repeat split; auto|]. intros _. apply Hs, Ha.
  - destruct (clearTimer _ _) as [r|] eqn:Hclr; [|discriminate]. simplify_eq.
    destruct (coherent_timers s Hc) as [Ht|[t Ht]]; rewrite Ht in Hclr;
      [discriminate|].
    apply clearTimer_single in Hclr as [-> ->].
    unfold coherent in Hc. rewrite Ht in Hc. destruct Hc as (Hb & Ha & Ho & Hcp).
    unfold closeBetting. apply startNewRound_sound; srv; auto.
Qed.

Lemma reachable_sound d s : reachable d s -> coherent s /\ settled s.
Proof.
  induction 1 as [|s l s' _ IH Hstep].
  - split; [repeat split | intros _; vm_compute; reflexivity].
  - eapply sound_step; eassumption.
Qed.

(** ** The crash *)

Lemma crashGame_gameState st s :
  gameState (crashGame st s) = set_isActive false (gameState s).
Proof.
  unfold crashGame. srv.
  destruct (crashPoint (gameState s)); [|reflexivity]. srv.
  destruct (db s); [destruct st|]; reflexivity.
Qed.

(** C10. [crashGame] changes [isActive] and no other field of [gameState].
    In every reachable state of a started game whose round is not active,
    the stored multiplier is at or above the crash point, and every step
    leaves it as it is except the end of the betting window, where
    [startNewRound] assigns 1.0. *)
Theorem crash_keeps_multiplier d s
  (Hreach : reachable d s)
  (Hboot : booted s = true)
  (Hcrashed : isActive (gameState s) = false) :
  (forall st s0, gameState (crashGame st s0) = set_isActive false (gameState s0))
  /\ Num.ge (multiplier (gameState s)) (null_to_num (crashPoint (gameState s)))
     = true
  /\ (forall l s',
         step l s = Some s' ->
         multiplier (gameState s') = multiplier (gameState s)
         \/ exists r c st, l = BettingOver r c st)
  /\ (forall r t1 t2 g, multiplier (newRound r t1 t2 g) = Num.of_Z 1).
Proof.
  split; [exact crashGame_gameState|].
  split; [apply (reachable_sound d s Hreach), Hcrashed|].
  split.
  - intros l s' Hstep.
    destruct (is_request l) eqn:Hl.
    { left. apply (request_same_round l s s' Hl Hstep). }
    destruct l; try discriminate Hl; cbn [step] in Hstep; unfold fires in Hstep.
    + rewrite Hboot in Hstep. discriminate.
    + left. destruct (clearTimer _ _); [|discriminate]. simplify_eq.
      unfold updateMultiplier. srv. rewrite Hcrashed. reflexivity.
    + left. destruct (clearTimer _ _); [|discriminate]. simplify_eq.
      reflexivity.
    + right. eauto.
  - intros r t1 t2 g. unfold newRound.
    destruct (generateCrashPoint r). reflexivity.
Qed.

Lemma crash_keeps_multiplier_witness :
  reachable None (after None first_crash)
  /\ booted (after None first_crash) = true
  /\ isActive (gameState (after None first_crash)) = false
  /\ ((forall st s0,
          gameState (crashGame st s0) = set_isActive false (gameState s0))
      /\ Num.ge (multiplier (gameState (after None first_crash)))
           (null_to_num (crashPoint (gameState (after None first_crash))))
         = true
      /\ (forall l s',
             step l (after None first_crash) = Some s' ->
             multiplier (gameState s')
             = multiplier (gameState (after None first_crash))
             \/ exists r c st, l = BettingOver r c st)
      /\ (forall r t1 t2 g, multiplier (newRound r t1 t2 g) = Num.of_Z 1)).
Proof.
  assert (Hr : reachable None (after None first_crash)).
  { apply (run_reachable None first_crash (initial None));
      [constructor | vm_compute; reflexivity]. }
  split; [exact Hr|].
  split; [vm_compute; reflexivity|].
  split; [vm_compute; reflexivity|].
  apply (crash_keeps_multiplier None (after None first_crash) Hr);
    vm_compute; reflexivity.
Defined.

(** ** The two maps *)

Lemma crashGame_keeps_maps st s : keeps_maps s (crashGame st s).
Proof.
  unfold crashGame, keeps_maps. srv.
  destruct (crashPoint (gameState s)); srv; [|repeat split].
  destruct (db s) eqn:Hdb; [destruct st|]; srv; rewrite ?Hdb; repeat split.
Qed.

Lemma updateMultiplier_keeps_maps now st s :
  keeps_maps s (updateMultiplier now st s).
Proof.
  unfold updateMultiplier.
  destruct (negb _); [repeat split|].
  destruct (Num.ge _ _); [|repeat split].
  apply (crashGame_keeps_maps st (upd (set_multiplier _) s)).
Qed.

Lemma startNewRound_keeps_maps r c st s :
  keeps_maps s (startNewRound r c st s).
Proof.
  unfold startNewRound, roundStart.
  destruct (updateMultiplier_keeps_maps (t_tick c) st
              (io_emit "roundStart"
                 [("roundId",
                   opt_str (roundId (gameState
                      (upd (newRound r (t_id c) (t_start c)) s))));
                  ("multiplier", VNum (Num.of_Z 1))]
                 (upd (newRound r (t_id c) (t_start c)) s)))
    as (Hp & Hc & Ht & Hr & Hpr & Hw).
  unfold keeps_maps. rewrite Hp, Hc, Ht, Hr, Hpr, Hw.
  unfold newRound. destruct (generateCrashPoint r). repeat split.
Qed.

(** C7 (the code does not keep this). With a database the handler of
    [cashout] waits for the credit before it writes to [cashedOut]. Here
    alice's cashout arrives in the display window, the window ends and both
    maps are replaced, and then the database replies: [cashedOut] holds
    alice while [players] is empty, in the betting window of the next
    round. *)
Theorem cashedOut_outlives_players :
  let s := after (Some empty_db) late_cashout in
  run late_cashout (initial (Some empty_db)) = Some s
  /\ phase (gameState s) = BETTING_OPEN
  /\ players (gameState s) = ∅
  /\ is_Some (cashedOut (gameState s) !! alice)
  /\ ~ cashouts_have_bets s.
Proof.
  cbv zeta. split; [vm_compute; reflexivity|].
  split; [vm_compute; reflexivity|].
  assert (Hp : players (gameState (after (Some empty_db) late_cashout)) = ∅)
    by (vm_compute; reflexivity).
  assert (Hc : is_Some
                 (cashedOut (gameState (after (Some empty_db) late_cashout))
                    !! alice)).
  { eexists. vm_compute. reflexivity. }
  split; [exact Hp|]. split; [exact Hc|].
  unfold cashouts_have_bets. rewrite Hp. intros Hsub.
  apply elem_of_dom in Hc. apply Hsub in Hc.
  rewrite dom_empty_L in Hc. exact (not_elem_of_empty _ Hc).
Qed.

(** ** Rounding never gives NaN *)

Section Rounding.
Variables prec emax : Z.

Lemma shr_1_nonneg mrs : 0 <= shr_m mrs -> 0 <= shr_m (shr_1 mrs).
Proof.
  destruct mrs as [m r s]. cbn [shr_m]. intros Hm.
  destruct m as [|p|p]; [cbn; lia | | lia].
  destruct p; cbn; lia.
Qed.

Lemma iter_shr_1_nonneg p mrs :
  0 <= shr_m mrs -> 0 <= shr_m (SpecFloat.iter_pos shr_1 p mrs).
Proof.
  revert mrs. induction p as [p IH|p IH|]; intros mrs Hm; cbn [SpecFloat.iter_pos].
  - apply IH, IH, shr_1_nonneg, Hm.
  - apply IH, IH, Hm.
  - apply shr_1_nonneg, Hm.
Qed.

Lemma shr_fexp_nonneg m e l :
  0 <= m -> 0 <= shr_m (fst (shr_fexp prec emax m e l)).
Proof.
  intros Hm. unfold shr_fexp, shr.
  assert (H0 : 0 <= shr_m (shr_record_of_loc m l)).
  { destruct l as [|[]]; exact Hm. }
  destruct (_ - e); cbn [fst]; [exact H0 | | exact H0].
  apply iter_shr_1_nonneg, H0.
Qed.

Lemma round_nearest_even_nonneg m l : 0 <= m -> 0 <= round_nearest_even m l.
Proof.
  intros Hm. destruct l as [|[]]; cbn [round_nearest_even]; try lia.
  destruct (Z.even m); lia.
Qed.

Lemma binary_round_aux_signed sx m e l :
  0 <= m -> signed sx (binary_round_aux prec emax sx m e l).
Proof.
  intros Hm. unfold binary_round_aux.
  pose proof (shr_fexp_nonneg m e l Hm) as H1.
  destruct (shr_fexp prec emax m e l) as [mrs' e'] eqn:E1. cbn [fst] in H1.
  pose proof (shr_fexp_nonneg
                (round_nearest_even (shr_m mrs') (loc_of_shr_record mrs')) e'
                loc_Exact (round_nearest_even_nonneg _ _ H1)) as H2.
  destruct (shr_fexp prec emax (round_nearest_even _ _) e' loc_Exact)
    as [mrs'' e''] eqn:E2. cbn [fst] in H2.
  destruct (shr_m mrs'') as [|p|p]; [constructor | | lia].
  destruct (e'' <=? emax - prec); constructor.
Qed.

Lemma binary_round_signed sx m e : signed sx (binary_round prec emax sx m e).
Proof.
  unfold binary_round. destruct (shl_align _ _ _) as [mz ez].
  apply binary_round_aux_signed. lia.
Qed.
End Rounding.

Lemma of_Z_signed z : 0 <= z -> signed false (Num.of_Z z).
Proof.
  intros Hz. unfold Num.of_Z, binary_normalize.
  destruct z as [|p|p]; [constructor | apply binary_round_signed | lia].
Qed.

Lemma signed_defined s x : signed s x -> defined x.
Proof. intros [] ?; discriminate. Qed.

Lemma binary_normalize_defined z e : defined (binary_normalize Num.prec Num.emax z e false).
Proof.
  unfold binary_normalize. destruct z; [discriminate | |];
    eapply signed_defined, binary_round_signed.
Qed.

Lemma sub_finite_defined s m e y :
  defined y -> defined (Num.sub (S754_finite s m e) y).
Proof.
  intros Hy. unfold Num.sub, SFsub.
  destruct y; try discriminate; [contradiction|].
  apply binary_normalize_defined.
Qed.

Lemma div_core_nonneg m1 e1 m2 e2 :
  0 <= fst (fst (SFdiv_core_binary Num.prec Num.emax (Zpos m1) e1 (Zpos m2) e2)).
Proof.
  unfold SFdiv_core_binary.
  set (s := _ - _ - _). 
  set (m' := match s with Z0 => _ | Zpos _ => _ | Zneg _ => _ end).
  assert (Hm' : 0 <= m').
  { subst m'. destruct s; [lia | | lia]. apply Z.shiftl_nonneg. lia. }
  pose proof (Z_div_mod m' (Zpos m2) ltac:(lia)) as Hdm.
  destruct (Z.div_eucl m' (Zpos m2)) as [q r]. cbn [fst].
  destruct Hdm as [Heq Hr]. nia.
Qed.

Lemma div_finite_signed sx mx ex sy my ey :
  signed (xorb sx sy)
    (Num.div (S754_finite sx mx ex) (S754_finite sy my ey)).
Proof.
  unfold Num.div, SFdiv.
  pose proof (div_core_nonneg mx ex my ey) as Hq.
  destruct (SFdiv_core_binary _ _ _ _ _ _) as [[mz ez] lz]. cbn [fst] in Hq.
  apply binary_round_aux_signed, Hq.
Qed.

Lemma div_finite_l_defined s m e y :
  defined y -> defined (Num.div (S754_finite s m e) y).
Proof.
  intros Hy. destruct y; try (unfold Num.div, SFdiv; discriminate);
    [contradiction|].
  eapply signed_defined, div_finite_signed.
Qed.

Lemma div_finite_r_signed x my ey :
  signed false x -> signed false (Num.div x (S754_finite false my ey)).
Proof.
  intros []; [constructor | constructor |].
  apply (div_finite_signed false m e false my ey).
Qed.

Lemma mul_finite_r_defined x s m e :
  defined x -> defined (Num.mul x (S754_finite s m e)).
Proof.
  intros Hx. destruct x; try (unfold Num.mul, SFmul; discriminate);
    [contradiction|].
  unfold Num.mul, SFmul. eapply signed_defined, binary_round_aux_signed. lia.
Qed.

(** the two clamps *)
Lemma clamp_bounds x :
  defined x ->
  Num.le (Num.dec 101 2) (Num.min (Num.max (Num.dec 101 2) x) (Num.of_Z 100)) = true
  /\ Num.le (Num.min (Num.max (Num.dec 101 2) x) (Num.of_Z 100)) (Num.of_Z 100) = true.
Proof.
  intros Hx.
  change (Num.dec 101 2) with (S754_finite false 4548635623644201 (-52)).
  change (Num.of_Z 100) with (S754_finite false 7036874417766400 (-46)).
  unfold Num.le, Num.min, Num.max, SFleb.
  destruct x as [s|s| |s m e]; [| | contradiction |].
  - destruct s; cbn; auto.
  - destruct s; cbn; auto.
  - destruct (SFcompare (S754_finite false 4548635623644201 (-52)) (S754_finite s m e))
      as [[]|] eqn:H1.
    + cbn. auto.
    + destruct (SFcompare (S754_finite s m e) (S754_finite false 7036874417766400 (-46)))
      as [[]|] eqn:H2.
      * rewrite H1, H2. auto.
      * rewrite H1, H2. auto.
      * cbn. auto.
      * discriminate H2.
    + cbn. auto.
    + discriminate H1.
Qed.

(** ** Reading back the digest *)

Lemma digit_facts v :
  0 <= v < 16 ->
  Hex.is_space (Hex.digit v) = false
  /\ Hex.digit_value (Hex.digit v) = Some v
  /\ Hex.digit v <> "-"%char /\ Hex.digit v <> "+"%char
  /\ Hex.digit v <> "x"%char /\ Hex.digit v <> "X"%char.
Proof.
  intros Hv.
  assert (Hc : v = 0 \/ v = 1 \/ v = 2 \/ v = 3 \/ v = 4 \/ v = 5 \/ v = 6
               \/ v = 7 \/ v = 8 \/ v = 9 \/ v = 10 \/ v = 11 \/ v = 12
               \/ v = 13 \/ v = 14 \/ v = 15) by lia.
  repeat (destruct Hc as [->|Hc]); [..|subst v];
    (repeat split; first [reflexivity | discriminate]).
Qed.

Lemma nibble_range w i : 0 <= Hex.nibble w i < 16.
Proof. unfold Hex.nibble. apply Z.mod_pos_bound. lia. Qed.

Lemma strip_0x_digit c c' r :
  c' <> "x"%char -> c' <> "X"%char ->
  Hex.strip_0x (String c (String c' r)) = String c (String c' r).
Proof.
  intros Hx HX. unfold Hex.strip_0x.
  destruct c as [[] [] [] [] [] [] [] []]; try reflexivity.
  destruct c' as [[] [] [] [] [] [] [] []]; try reflexivity; congruence.
Qed.

Lemma parseInt16_unsigned c r :
  Hex.is_space c = false -> c <> "-"%char -> c <> "+"%char ->
  Hex.parseInt16 (String c r)
  = match Hex.digits (Hex.strip_0x (String c r)) false 0 with
    | Some v => Num.of_Z v
    | None => Num.nan
    end.
Proof.
  intros Hs Hm Hp. unfold Hex.parseInt16. cbn [Hex.skip_spaces]. rewrite Hs.
  destruct c as [[] [] [] [] [] [] [] []]; try reflexivity; congruence.
Qed.

Lemma digits_digit v r seen acc :
  0 <= v < 16 ->
  Hex.digits (String (Hex.digit v) r) seen acc = Hex.digits r true (16 * acc + v).
Proof.
  intros Hv. cbn [Hex.digits].
  destruct (digit_facts v Hv) as (_ & -> & _). reflexivity.
Qed.

Lemma nibbles_sum w :
  16 * (16 * (16 * (16 * (16 * (16 * (16 * (16 * 0 + Hex.nibble w 7)
    + Hex.nibble w 6) + Hex.nibble w 5) + Hex.nibble w 4) + Hex.nibble w 3)
    + Hex.nibble w 2) + Hex.nibble w 1) + Hex.nibble w 0
  = w mod 2 ^ 32.
Proof.
  unfold Hex.nibble.
  change (16 ^ 7) with 268435456. change (16 ^ 6) with 16777216.
  change (16 ^ 5) with 1048576. change (16 ^ 4) with 65536.
  change (16 ^ 3) with 4096. change (16 ^ 2) with 256.
  change (16 ^ 1) with 16. change (16 ^ 0) with 1.
  change (2 ^ 32) with 4294967296.
  Z.div_mod_to_equations; lia.
Qed.

(** [parseInt] reads back a word printed on eight digits *)
Lemma parseInt16_hex8 w : Hex.parseInt16 (Hex.hex8 w) = Num.of_Z (w mod 2 ^ 32).
Proof.
  unfold Hex.hex8.
  pose proof (nibble_range w 7) as H7. pose proof (nibble_range w 6) as H6.
  destruct (digit_facts _ H7) as (Hs & _ & Hm & Hp & _).
  destruct (digit_facts _ H6) as (_ & _ & _ & _ & Hx & HX).
  rewrite (parseInt16_unsigned _ _ Hs Hm Hp), (strip_0x_digit _ _ _ Hx HX).
  rewrite !digits_digit by apply nibble_range.
  cbn [Hex.digits]. rewrite nibbles_sum. reflexivity.
Qed.

Lemma take_hex8 w r : take_string 8 (Hex.hex8 w +:+ r) = Hex.hex8 w.
Proof. reflexivity. Qed.

Lemma randomValue_first_word seed :
  randomValue seed
  = Num.div (Num.of_Z (first_word seed)) (Num.of_Z 4294967295).
Proof.
  unfold randomValue, first_word, Sha256.sha256_hex.
  destruct (Sha256.digest _) as [a b c d e f g h].
  rewrite take_hex8, parseInt16_hex8. reflexivity.
Qed.

Lemma first_word_range seed : 0 <= first_word seed < 2 ^ 32.
Proof. apply Z.mod_pos_bound. lia. Qed.

Lemma randomValue_signed seed : signed false (randomValue seed).
Proof.
  rewrite randomValue_first_word.
  change (Num.of_Z 4294967295) with (S754_finite false 9007199252643840 (-21)).
  apply div_finite_r_signed, of_Z_signed, first_word_range.
Qed.

Lemma crashPointOf_in_range seed :
  Num.le (Num.dec 101 2) (crashPointOf seed) = true
  /\ Num.le (crashPointOf seed) (Num.of_Z 100) = true.
Proof.
  unfold crashPointOf, rawCrashPoint. apply clamp_bounds.
  change (Num.dec 99 2) with (S754_finite false 8917127262193582 (-53)).
  apply mul_finite_r_defined.
  change (Num.of_Z 1) with (S754_finite false 4503599627370496 (-52)).
  apply div_finite_l_defined, sub_finite_defined.
  eapply signed_defined, randomValue_signed.
Qed.

(** C5. For every seed the crash point is between 1.01 and 100. The cap
    at 100 is applied to the value already raised to 1.01, so that an
    infinite raw value gives exactly 100; the seed [seed_ff], whose digest
    starts with [ffffffff], is such a case. *)
Theorem crashPoint_bounds seed :
  Num.le (Num.dec 101 2) (crashPointOf seed) = true
  /\ Num.le (crashPointOf seed) (Num.of_Z 100) = true
  /\ crashPointOf seed = Num.min (rawCrashPoint seed) (Num.of_Z 100)
  /\ Num.min (Num.max (Num.dec 101 2) Num.infinity) (Num.of_Z 100) = Num.of_Z 100
  /\ rawCrashPoint seed_ff = Num.infinity
  /\ crashPointOf seed_ff = Num.of_Z 100.
Proof.
  destruct (crashPointOf_in_range seed) as [Hlo Hhi].
  split; [exact Hlo|]. split; [exact Hhi|]. split; [reflexivity|].
  split; [vm_compute; reflexivity|]. split; vm_compute; reflexivity.
Qed.

(** ** Sizes of mantissas *)

Lemma digits2_pos_bounds p :
  2 ^ (Zpos (digits2_pos p) - 1) <= Zpos p < 2 ^ Zpos (digits2_pos p).
Proof.
  induction p as [p IH|p IH|]; cbn [digits2_pos].
  - rewrite Pos2Z.inj_succ, Z.pow_succ_r by lia.
    replace (Z.succ (Zpos (digits2_pos p)) - 1) with (Z.succ (Zpos (digits2_pos p) - 1)) by lia.
    rewrite Z.pow_succ_r by lia. lia.
  - rewrite Pos2Z.inj_succ, Z.pow_succ_r by lia.
    replace (Z.succ (Zpos (digits2_pos p)) - 1) with (Z.succ (Zpos (digits2_pos p) - 1)) by lia.
    rewrite Z.pow_succ_r by lia. lia.
  - cbn. lia.
Qed.

Lemma digits2_pos_unique p k :
  2 ^ (k - 1) <= Zpos p < 2 ^ k -> Zpos (digits2_pos p) = k.
Proof.
  intros [Hlo Hhi]. pose proof (digits2_pos_bounds p) as [Hl Hh].
  set (d := Zpos (digits2_pos p)) in *.
  assert (Hd : 0 < d) by (subst d; lia).
  destruct (Z.lt_trichotomy d k) as [Hlt|[Heq|Hgt]]; [|exact Heq|].
  - assert (2 ^ d <= 2 ^ (k - 1)) by (apply Z.pow_le_mono_r; lia). lia.
  - destruct (Z.le_gt_cases k 0) as [Hk|Hk].
    + assert (2 ^ k <= 2 ^ 0) by (apply Z.pow_le_mono_r; lia).
      change (2 ^ 0) with 1 in *. lia.
    + assert (2 ^ k <= 2 ^ (d - 1)) by (apply Z.pow_le_mono_r; lia). lia.
Qed.

Lemma iter_xO_value p d : Zpos (Pos.iter xO p d) = Zpos p * 2 ^ Zpos d.
Proof.
  induction d as [|d IH] using Pos.peano_ind.
  - cbn [Pos.iter]. lia.
  - rewrite Pos.iter_succ, Pos2Z.inj_succ, Z.pow_succ_r by lia.
    rewrite Pos2Z.inj_xO, IH. lia.
Qed.

Lemma iter_xO_digits p d :
  Zpos (digits2_pos (Pos.iter xO p d)) = Zpos (digits2_pos p) + Zpos d.
Proof.
  induction d as [|d IH] using Pos.peano_ind.
  - cbn [Pos.iter digits2_pos]. lia.
  - rewrite Pos.iter_succ. cbn [digits2_pos]. lia.
Qed.

(** ** Rounding a mantissa of 53 bits *)

Lemma shr_fexp_53 m e l :
  Zpos (digits2_pos m) = 53 -> -1074 <= e ->
  shr_fexp Num.prec Num.emax (Zpos m) e l
  = (shr_record_of_loc (Zpos m) l, e).
Proof.
  intros Hd He. unfold shr_fexp, fexp, emin, Num.prec, Num.emax.
  cbn [Zdigits2]. rewrite Hd.
  replace (Z.max (53 + e - 53) (3 - 1024 - 53) - e) with 0 by lia.
  reflexivity.
Qed.

Lemma loc_of_shr_record_of_loc m l :
  loc_of_shr_record (shr_record_of_loc m l) = l
  /\ shr_m (shr_record_of_loc m l) = m.
Proof. destruct l as [|[]]; split; reflexivity. Qed.

Lemma binary_round_aux_53 sx m e l :
  Zpos (digits2_pos m) = 53 -> -1074 <= e <= 970 ->
  exists m' e',
    binary_round_aux Num.prec Num.emax sx (Zpos m) e l = S754_finite sx m' e'
    /\ (e' = e \/ (e' = e + 1 /\ m' = 4503599627370496%positive)).
Proof.
  intros Hd He. unfold binary_round_aux.
  rewrite shr_fexp_53 by (auto; lia).
  destruct (loc_of_shr_record_of_loc (Zpos m) l) as [-> ->].
  pose proof (digits2_pos_bounds m) as Hm. rewrite Hd in Hm.
  change (2 ^ (53 - 1)) with 4503599627370496 in Hm.
  change (2 ^ 53) with 9007199254740992 in Hm.
  assert (Hr : round_nearest_even (Zpos m) l = Zpos m
               \/ round_nearest_even (Zpos m) l = Zpos m + 1).
  { destruct l as [|[]]; cbn [round_nearest_even]; auto.
    destruct (Z.even (Zpos m)); auto. }
  assert (Hcase : (exists m1, round_nearest_even (Zpos m) l = Zpos m1
                              /\ Zpos (digits2_pos m1) = 53)
                  \/ round_nearest_even (Zpos m) l = 9007199254740992).
  { destruct Hr as [Hr|Hr]; rewrite Hr.
    - left. exists m. auto.
    - destruct (Z.eq_dec (Zpos m + 1) 9007199254740992) as [Heq|Hne]; [auto|].
      left. exists (m + 1)%positive. split; [lia|].
      apply digits2_pos_unique.
      change (2 ^ (53 - 1)) with 4503599627370496.
      change (2 ^ 53) with 9007199254740992. lia. }
  destruct Hcase as [(m1 & -> & Hd1)| ->].
  - rewrite shr_fexp_53 by (auto; lia). cbn [shr_record_of_loc shr_m].
    unfold Num.prec, Num.emax.
    destruct (Z.leb_spec e (1024 - 53)); [|lia]. eauto.
  - unfold shr_fexp, fexp, emin, Num.prec, Num.emax.
    change (Zdigits2 9007199254740992) with 54.
    replace (Z.max (54 + e - 53) (3 - 1024 - 53) - e) with 1 by lia.
    cbn [shr shr_record_of_loc SpecFloat.iter_pos shr_1 shr_m orb].
    destruct (Z.leb_spec (e + 1) (1024 - 53)); [|lia].
    eexists _, _. split; [reflexivity|]. right. split; reflexivity.
Qed.

(** an integer below 2^53 is a number of its own value: the mantissa is
    shifted to 53 bits, and nothing is rounded *)
Lemma of_Z_pos p :
  Zpos (digits2_pos p) <= 53 ->
  exists m,
    Num.of_Z (Zpos p) = S754_finite false m (Zpos (digits2_pos p) - 53)
    /\ Zpos m = Zpos p * 2 ^ (53 - Zpos (digits2_pos p))
    /\ Zpos (digits2_pos m) = 53.
Proof.
  intros Hk. unfold Num.of_Z, binary_normalize, binary_round.
  set (k := Zpos (digits2_pos p)) in *.
  assert (Hk0 : 0 < k) by (subst k; lia).
  assert (Hf : fexp Num.prec Num.emax (k + 0) = k - 53).
  { unfold fexp, emin, Num.prec, Num.emax. lia. }
  rewrite Hf. unfold shl_align.
  destruct (k - 53 - 0) as [|d|d] eqn:Hd; [|lia|].
  - assert (Hk53 : k = 53) by lia. rewrite Hk53. change (53 - 53) with 0.
    exists p. split; [|split; [lia|exact Hk53]].
    unfold binary_round_aux.
    rewrite shr_fexp_53 by (auto; lia).
    cbn [shr_record_of_loc loc_of_shr_record shr_m round_nearest_even].
    rewrite shr_fexp_53 by (auto; lia).
    cbn [shr_record_of_loc shr_m]. unfold Num.prec, Num.emax.
    destruct (Z.leb_spec 0 (1024 - 53)); [|lia]. reflexivity.
  - assert (Hdig : Zpos (digits2_pos (Pos.iter xO p d)) = 53).
    { rewrite iter_xO_digits. fold k. lia. }
    exists (Pos.iter xO p d). split; [|split; [|exact Hdig]].
    + unfold binary_round_aux.
      rewrite shr_fexp_53 by (auto; lia).
      cbn [shr_record_of_loc loc_of_shr_record shr_m round_nearest_even].
      rewrite shr_fexp_53 by (auto; lia).
      cbn [shr_record_of_loc shr_m]. unfold Num.prec, Num.emax.
      destruct (Z.leb_spec (k - 53) (1024 - 53)); [|lia]. reflexivity.
    + rewrite iter_xO_value. f_equal. f_equal. lia.
Qed.


(** ** A quotient at most one *)

Lemma div_eucl_div_mod a b : Z.div_eucl a b = (a / b, a mod b).
Proof. unfold Z.div, Z.modulo. destruct (Z.div_eucl a b). reflexivity. Qed.

Lemma div_core_53 mx ex my ey :
  Zpos (digits2_pos mx) = 53 -> Zpos (digits2_pos my) = 53 ->
  -1021 <= ex - ey ->
  SFdiv_core_binary Num.prec Num.emax (Zpos mx) ex (Zpos my) ey
  = ((Zpos mx * 2 ^ 53) / Zpos my, ex - ey - 53,
     new_location (Zpos my) ((Zpos mx * 2 ^ 53) mod Zpos my)).
Proof.
  intros Hx Hy He. unfold SFdiv_core_binary. cbn [Zdigits2].
  rewrite Hx, Hy. unfold fexp, emin, Num.prec, Num.emax.
  replace (Z.min (Z.max (53 + ex - (53 + ey) - 53) (3 - 1024 - 53)) (ex - ey))
    with (ex - ey - 53) by lia.
  replace (ex - ey - (ex - ey - 53)) with 53 by lia.
  rewrite Z.shiftl_mul_pow2 by lia.
  rewrite div_eucl_div_mod. reflexivity.
Qed.

Lemma div_below_one mx ex my ey :
  Zpos (digits2_pos mx) = 53 -> Zpos (digits2_pos my) = 53 ->
  Zpos mx < Zpos my -> -1021 <= ex - ey <= 0 ->
  Num.le (Num.div (S754_finite false mx ex) (S754_finite false my ey))
         (S754_finite false 4503599627370496 (-52)) = true.
Proof.
  intros Hx Hy Hlt He. unfold Num.div, SFdiv.
  rewrite div_core_53 by (auto; lia).
  pose proof (digits2_pos_bounds mx) as Bx. rewrite Hx in Bx.
  pose proof (digits2_pos_bounds my) as By. rewrite Hy in By.
  change (2 ^ (53 - 1)) with 4503599627370496 in *.
  change (2 ^ 53) with 9007199254740992 in *.
  set (q := Z.pos mx * 9007199254740992 / Z.pos my).
  assert (Hq : 4503599627370496 <= q < 9007199254740992).
  { subst q. split.
    - apply Z.div_le_lower_bound; lia.
    - apply Z.div_lt_upper_bound; lia. }
  destruct q as [|qp|qp] eqn:Eq; [lia | | lia].
  assert (Hdq : Zpos (digits2_pos qp) = 53).
  { apply digits2_pos_unique.
    change (2 ^ (53 - 1)) with 4503599627370496.
    change (2 ^ 53) with 9007199254740992. lia. }
  cbn [xorb].
  destruct (binary_round_aux_53 false qp (ex - ey - 53)
              (new_location (Z.pos my)
                 ((Z.pos mx * 9007199254740992) mod Z.pos my)) Hdq
              ltac:(lia)) as (m' & e' & -> & Hcase).
  unfold Num.le, SFleb, SFcompare.
  destruct Hcase as [->|[-> ->]].
  - destruct (Z.compare_spec (ex - ey - 53) (-52)); [lia | reflexivity | lia].
  - destruct (Z.compare_spec (ex - ey - 53 + 1) (-52)); [reflexivity | reflexivity | lia].
Qed.

(** ** [randomValue] is between 0 and 1 *)

Lemma signed_false_nonneg x : signed false x -> Num.le (Num.of_Z 0) x = true.
Proof. intros []; reflexivity. Qed.

Lemma quotient_le_one n :
  0 <= n <= 4294967295 ->
  Num.le (Num.div (Num.of_Z n) (Num.of_Z 4294967295)) (Num.of_Z 1) = true.
Proof.
  intros Hn.
  destruct (Z.eq_dec n 0) as [->|Hn0]; [vm_compute; reflexivity|].
  destruct (Z.eq_dec n 4294967295) as [->|HnD]; [vm_compute; reflexivity|].
  destruct n as [|p|p]; [lia | | lia].
  pose proof (digits2_pos_bounds p) as Bp.
  set (k := Zpos (digits2_pos p)) in *.
  assert (Hk0 : 0 < k) by (subst k; lia).
  assert (Hk : k <= 32).
  { destruct (Z.le_gt_cases k 32) as [|Hgt]; [assumption|].
    assert (2 ^ 32 <= 2 ^ (k - 1)) by (apply Z.pow_le_mono_r; lia).
    change (2 ^ 32) with 4294967296 in *. lia. }
  destruct (of_Z_pos p ltac:(fold k; lia)) as (m & -> & Hm & Hdm).
  fold k in Hm.
  change (Num.of_Z 4294967295) with (S754_finite false 9007199252643840 (-21)).
  change (Num.of_Z 1) with (S754_finite false 4503599627370496 (-52)).
  apply div_below_one; [exact Hdm | reflexivity | | fold k; lia].
  assert (Hpow : 2 ^ (53 - k) * 2 ^ k = 9007199254740992).
  { rewrite <- Z.pow_add_r by lia. replace (53 - k + k) with 53 by lia.
    reflexivity. }
  assert (Hge : k = 32 /\ 2 ^ (53 - k) = 2097152
                \/ k < 32 /\ 4194304 <= 2 ^ (53 - k)).
  { destruct (Z.eq_dec k 32) as [Hk32|Hk32].
    - left. split; [exact Hk32|]. rewrite Hk32. reflexivity.
    - right. split; [lia|]. change 4194304 with (2 ^ 22).
      apply Z.pow_le_mono_r; lia. }
  destruct Bp as [_ Bp].
  assert (Hmul : (Z.pos p + 1) * 2 ^ (53 - k) <= 2 ^ k * 2 ^ (53 - k)).
  { apply Z.mul_le_mono_nonneg_r; [apply Z.pow_nonneg|]; lia. }
  assert (Hp : Z.pos p < 4294967295) by lia.
  revert Hm Hpow Hge Hmul Hp.
  generalize (2 ^ (53 - k)) (2 ^ k) (Z.pos m) (Z.pos p). clear.
  intros A B zm zp Hm Hpow Hge Hmul Hp.
  destruct Hge as [[_ ->]|[_ Hge]]; [lia|].
  assert (zp * A + A <= 9007199254740992).
  { rewrite <- Hpow, (Z.mul_comm A B), <- Hmul. ring_simplify. apply Z.le_refl. }
  lia.
Qed.

(** C8, as stated, fails: the digest of [seed_ff] starts with [ffffffff],
    and its [randomValue] is 1, not below 1. *)
Lemma randomValue_reaches_one :
  take_string 8 (Sha256.sha256_hex seed_ff) = "ffffffff"%string
  /\ randomValue seed_ff = Num.of_Z 1
  /\ Num.lt (randomValue seed_ff) (Num.of_Z 1) = false.
Proof. split; [|split]; vm_compute; reflexivity. Qed.

(** C8, amended. For every seed, [randomValue] is the first four bytes of
    the digest, a whole number from 0 to 0xFFFFFFFF, divided by 0xFFFFFFFF: it
    lies in the closed interval from 0 to 1. *)
Theorem randomValue_unit_interval seed :
  randomValue seed
  = Num.div (Num.of_Z (first_word seed)) (Num.of_Z 4294967295)
  /\ 0 <= first_word seed <= 4294967295
  /\ Num.le (Num.of_Z 0) (randomValue seed) = true
  /\ Num.le (randomValue seed) (Num.of_Z 1) = true.
Proof.
  pose proof (first_word_range seed) as Hr.
  change (2 ^ 32) with 4294967296 in Hr.
  split; [apply randomValue_first_word|].
  split; [lia|].
  split; [apply signed_false_nonneg, randomValue_signed|].
  rewrite randomValue_first_word. apply quotient_le_one. lia.
Qed.

(** ** Comparisons *)

Lemma SFcompare_antisym x y :
  SFcompare y x = option_map CompOpp (SFcompare x y).
Proof.
  destruct x as [sx| sx | |sx mx ex], y as [sy|sy| |sy my ey]; try reflexivity;
    try (destruct sx; reflexivity); try (destruct sy; reflexivity);
    try (destruct sx, sy; reflexivity).
  assert (Hz : (ex ?= ey) = CompOpp (ey ?= ex)) by apply Z.compare_antisym.
  assert (Hp : Pos.compare_cont Eq mx my = CompOpp (Pos.compare_cont Eq my mx)).
  { rewrite Pos.compare_cont_antisym. reflexivity. }
  unfold SFcompare, option_map. rewrite Hz, Hp.
  destruct sx, sy, (ey ?= ex), (Pos.compare_cont Eq my mx); reflexivity.
Qed.

(** [!(x < y)] gives [y <= x] when neither is NaN *)
Lemma not_lt_le x y :
  x <> S754_nan -> y <> S754_nan -> Num.lt x y = false -> Num.le y x = true.
Proof.
  intros Hx Hy. unfold Num.lt, Num.le, SFltb, SFleb.
  rewrite (SFcompare_antisym x y).
  destruct (SFcompare x y) as [[]|] eqn:E; try discriminate; try reflexivity.
  destruct x, y; try congruence; discriminate E.
Qed.

(** a number that passes [!usdAmount] and [usdAmount < 1 || usdAmount > 1000]
    is from 1 to 1000 *)
Lemma number_from_1_to_1000 x :
  Num.truthy x = true ->
  Num.lt x (Num.of_Z 1) = false ->
  Num.gt x (Num.of_Z 1000) = false ->
  Num.le (Num.of_Z 1) x = true /\ Num.le x (Num.of_Z 1000) = true.
Proof.
  intros Ht Hlo Hhi.
  assert (Hx : x <> S754_nan) by (intros ->; discriminate Ht).
  split.
  - apply not_lt_le; [exact Hx | discriminate | exact Hlo].
  - apply not_lt_le; [discriminate | exact Hx | exact Hhi].
Qed.

(** ** The outcomes of a handler *)

(** [POST /api/bet] ends in one of three ways: an error response and
    nothing else; with a database, a handler suspended on the lookup of the
    wallet; without one, the balance check on the default wallet *)
Lemma placeBet_cases rid b s :
  (exists msg, placeBet rid b s = respond rid (bad_request msg) s)
  \/ (exists c,
         ctx_of rid b s c
         /\ players (gameState s) !! bet_username c = None
         /\ isActive (gameState s) = false
         /\ ((is_Some (db s) /\ placeBet rid b s = await (BetFindWallet c) s)
             \/ (db s = None
                 /\ placeBet rid b s
                    = bet_checked c (default_wallet (bet_username c)) s))).
Proof.
  unfold placeBet.
  destruct b as [[user|] [usd|] [ct|]];
    cbn [body_username body_usdAmount body_cryptoType]; eauto.
  destruct (String.eqb user "" || negb (json_truthy usd) || String.eqb ct "")
    eqn:Hmiss; [eauto|].
  destruct (Num.lt (json_number usd) (Num.of_Z 1)
            || Num.gt (json_number usd) (Num.of_Z 1000)) eqn:Hrange;
    [eauto|].
  destruct (negb (String.eqb ct "BTC" || String.eqb ct "ETH")) eqn:Hct;
    [eauto|].
  destruct (players (gameState s) !! user) eqn:Hdup; [eauto|].
  destruct (isActive (gameState s)) eqn:Hact; [eauto|].
  right.
  exists {| bet_request := rid; bet_username := user; bet_usdAmount := usd;
            bet_cryptoType := ct;
            bet_cryptoAmount :=
              Num.div (json_number usd)
                (undef_to_num (price_of (cryptoPrices s) ct)) |}.
  split; [|split; [exact Hdup|split; [reflexivity|]]].
  - split; [reflexivity|]. split; [|reflexivity].
    cbn [bet_username bet_usdAmount bet_cryptoType].
    apply orb_false_elim in Hmiss as [Hmiss Hc].
    apply orb_false_elim in Hmiss as [Hu Ht].
    apply orb_false_elim in Hrange as [Hlo Hhi].
    apply negb_false_iff in Ht, Hct.
    apply String.eqb_neq in Hu.
    repeat split; auto.
    apply orb_true_iff in Hct as [Hk|Hk]; apply String.eqb_eq in Hk; auto.
  - destruct (db s); [left|right]; eauto.
Qed.

Lemma ctx_of_good rid b s c : ctx_of rid b s c -> good_ctx c.
Proof.
  intros (_ & (_ & Hu & Ht & Hlo & Hhi & Hk) & _). repeat split; auto.
Qed.

(** the balance check ends in an error response, in a suspended debit, or
    in the record of the bet *)
Lemma bet_checked_cases c w s :
  bet_checked c w s
  = respond (bet_request c) (bad_request "Insufficient balance") s
  \/ (is_Some (db s) /\ bet_checked c w s = await (BetDebit c) s)
  \/ (db s = None /\ bet_checked c w s = bet_record c s).
Proof.
  unfold bet_checked. destruct (Num.lt _ _); [auto|].
  destruct (db s); eauto.
Qed.

(** [cashout] ends in an [error] event and nothing else, in a suspended
    credit, or in the record of the cashout *)
Lemma cashout_cases sid user s :
  (exists msg,
      cashout sid user s = socket_emit sid "error" [("message", VStr msg)] s
      /\ (players (gameState s) !! user = None /\ msg = "No bet placed"%string
          \/ is_Some (players (gameState s) !! user)
             /\ is_Some (cashedOut (gameState s) !! user)
             /\ msg = "Already cashed out"%string))
  \/ (exists bet pay usd,
         players (gameState s) !! user = Some bet
         /\ cashedOut (gameState s) !! user = None
         /\ ((is_Some (db s)
              /\ cashout sid user s = await (CashoutCredit sid user bet pay usd) s)
             \/ (db s = None
                 /\ cashout sid user s = cashout_record sid user bet pay usd s))).
Proof.
  unfold cashout.
  destruct (players (gameState s) !! user) as [bet|] eqn:Hbet; [|eauto 7].
  destruct (cashedOut (gameState s) !! user) eqn:Hout; [eauto 10|].
  right. eexists bet, _, _. split; [reflexivity|]. split; [reflexivity|].
  destruct (db s); eauto.
Qed.

(** a reply of the database makes the suspended handler go on: from the
    state [s], possibly after a write, it ends in a response, in the next
    await, or in the record of the bet or the cashout *)
Lemma resume_cases t th now s :
  db s = None /\ resume t th now s = s
  \/ exists s0,
      written s s0 /\ is_Some (db s0)
      /\ ((exists c, task_ctx t = Some c
            /\ (resume t th now s
                = respond (bet_request c) (bad_request "Insufficient balance") s0
                \/ (exists w, resume t th now s = await (BetInsertWallet c w) s0)
                \/ resume t th now s = await (BetDebit c) s0
                \/ resume t th now s = bet_record c s0))
          \/ (exists sid user bet pay usd,
                 t = CashoutCredit sid user bet pay usd
                 /\ resume t th now s = cashout_record sid user bet pay usd s0)).
Proof.
  unfold resume. destruct (db s) as [d|] eqn:Hdb; [right|left; auto].
  destruct t as [c|c w|c|sid user bet pay usd].
  - exists s. split; [left; reflexivity|]. split; [rewrite Hdb; eauto|].
    left. exists c. split; [reflexivity|].
    unfold wallet_found.
    destruct th; [|destruct (findOne d (bet_username c))].
    + unfold bet_checked. destruct (Num.lt _ _); [auto|]. rewrite Hdb. auto.
    + unfold bet_checked. destruct (Num.lt _ _); [auto|]. rewrite Hdb. auto.
    + eauto.
  - destruct th.
    + exists s. split; [left; reflexivity|]. split; [rewrite Hdb; eauto|].
      left. exists c. split; [reflexivity|].
      unfold bet_checked. destruct (Num.lt _ _); [auto|]. rewrite Hdb. auto.
    + exists (set_db (Some (insertOne d w)) s).
      split; [right; eauto|]. split; [srv; eauto|].
      left. exists c. split; [reflexivity|].
      unfold bet_checked. destruct (Num.lt _ _); [auto|]. srv. auto.
  - destruct th.
    + exists s. split; [left; reflexivity|]. split; [rewrite Hdb; eauto|].
      left. exists c. split; [reflexivity|]. auto.
    + eexists. split; [right; eauto|]. split; [srv; eauto|].
      left. exists c. split; [reflexivity|]. auto.
  - destruct th.
    + exists s. split; [left; reflexivity|]. split; [rewrite Hdb; eauto|].
      right. eauto 10.
    + eexists. split; [right; eauto|]. split; [srv; eauto|].
      right. eauto 10.
Qed.

(** ** Invariants of the event loop *)

Lemma coherent_phases s :
  coherent s ->
  (isActive (gameState s) = true ->
   timers s = [TUpdateMultiplier] /\ isBettingOpen (gameState s) = false)
  /\ (isBettingOpen (gameState s) = true ->
      timers s = [TBettingWindow] /\ isActive (gameState s) = false)
  /\ (booted s = true -> isActive (gameState s) = false ->
      isBettingOpen (gameState s) = false -> timers s = [TCrashDisplay])
  /\ (booted s = false -> timers s = []).
Proof.
  intros Hc. destruct (coherent_timers s Hc) as [Ht|[t Ht]];
    unfold coherent in Hc; rewrite Ht in Hc.
  - destruct Hc as (Hb & Ha & Ho). repeat split; congruence.
  - destruct t; destruct Hc as (Hb & Ha & Ho & _); repeat split; congruence.
Qed.

(** X1. In every reachable state the two flags and the pending timer
    agree: while the round is active only the update timer is pending and
    betting is closed; while betting is open only the betting timer is
    pending and the round is not active; otherwise a started game waits on
    the display timer. The flags are never both true. *)
Theorem phases_exclusive d s (Hs : reachable d s) :
  (isActive (gameState s) = true ->
   timers s = [TUpdateMultiplier] /\ isBettingOpen (gameState s) = false)
  /\ (isBettingOpen (gameState s) = true ->
      timers s = [TBettingWindow] /\ isActive (gameState s) = false)
  /\ (booted s = true -> isActive (gameState s) = false ->
      isBettingOpen (gameState s) = false -> timers s = [TCrashDisplay])
  /\ (booted s = false -> timers s = []).
Proof. apply coherent_phases, (reachable_sound d s Hs). Qed.

Lemma phases_exclusive_witness :
  reachable None (after None (alice_bets ++ second_round))
  /\ ((isActive (gameState (after None (alice_bets ++ second_round))) = true ->
       timers (after None (alice_bets ++ second_round)) = [TUpdateMultiplier]
       /\ isBettingOpen (gameState (after None (alice_bets ++ second_round)))
          = false)
      /\ (isBettingOpen (gameState (after None (alice_bets ++ second_round)))
          = true ->
          timers (after None (alice_bets ++ second_round)) = [TBettingWindow]
          /\ isActive (gameState (after None (alice_bets ++ second_round)))
             = false)
      /\ (booted (after None (alice_bets ++ second_round)) = true ->
          isActive (gameState (after None (alice_bets ++ second_round)))
          = false ->
          isBettingOpen (gameState (after None (alice_bets ++ second_round)))
          = false ->
          timers (after None (alice_bets ++ second_round)) = [TCrashDisplay])
      /\ (booted (after None (alice_bets ++ second_round)) = false ->
          timers (after None (alice_bets ++ second_round)) = [])).
Proof.
  assert (Hr : reachable None (after None (alice_bets ++ second_round))).
  { apply (run_reachable None (alice_bets ++ second_round) (initial None));
      [constructor | vm_compute; reflexivity]. }
  split; [exact Hr|].
  exact (phases_exclusive None (after None (alice_bets ++ second_round)) Hr).
Defined.

(** *** The multiplier of a running round is below the crash point *)

Lemma updateMultiplier_running now st s :
  (isActive (gameState s) = false -> running s) ->
  running (updateMultiplier now st s).
Proof.
  intros Hs. unfold updateMultiplier.
  destruct (isActive (gameState s)) eqn:Ha; cbn [negb].
  - destruct (Num.ge _ _) eqn:Hge; unfold running.
    + rewrite crashGame_gameState. srv. discriminate.
    + srv. intros _. exact Hge.
  - apply Hs. reflexivity.
Qed.

Lemma running_step l s s' : step l s = Some s' -> running s -> running s'.
Proof.
  intros Hstep Hs.
  destruct (is_request l) eqn:Hl.
  { destruct (request_same_round l s s' Hl Hstep)
      as ((Ha & _ & _ & Hm & Hc & _) & _).
    unfold running. rewrite Ha, Hm, Hc. exact Hs. }
  destruct l; try discriminate Hl; cbn [step] in Hstep; unfold fires in Hstep.
  - destruct (booted s); [discriminate|]. simplify_eq.
    apply updateMultiplier_running. srv.
    unfold newRound. destruct (generateCrashPoint random). discriminate.
  - destruct (clearTimer _ _); [|discriminate]. simplify_eq.
    apply updateMultiplier_running. intros _. exact Hs.
  - destruct (clearTimer _ _); [|discriminate]. simplify_eq. exact Hs.
  - destruct (clearTimer _ _); [|discriminate]. simplify_eq.
    apply updateMultiplier_running. srv.
    unfold newRound. destruct (generateCrashPoint random). discriminate.
Qed.

(** X2. In every reachable state the round is active exactly when the
    stored multiplier is not yet at the crash point: an active round has
    [multiplier >= crashPoint] false, and a round that is not active has it
    true. So every tick that reaches the crash point ends the round in the
    same step. *)
Theorem active_iff_below_crash d s (Hs : reachable d s) :
  isActive (gameState s)
  = negb (Num.ge (multiplier (gameState s))
            (null_to_num (crashPoint (gameState s)))).
Proof.
  assert (Hrun : running s).
  { induction Hs as [|s l s' _ IH Hstep]; [discriminate|].
    eapply running_step; eassumption. }
  destruct (reachable_sound d s Hs) as [_ Hset].
  unfold running in Hrun. unfold settled in Hset.
  destruct (isActive (gameState s)).
  - rewrite Hrun; reflexivity.
  - rewrite Hset; reflexivity.
Qed.

Lemma active_iff_below_crash_witness :
  reachable None (after None (alice_bets ++ second_round))
  /\ isActive (gameState (after None (alice_bets ++ second_round)))
     = negb (Num.ge (multiplier (gameState (after None (alice_bets ++ second_round))))
               (null_to_num
                  (crashPoint (gameState (after None (alice_bets ++ second_round)))))).
Proof.
  assert (Hr : reachable None (after None (alice_bets ++ second_round))).
  { apply (run_reachable None (alice_bets ++ second_round) (initial None));
      [constructor | vm_compute; reflexivity]. }
  split; [exact Hr|].
  exact (active_iff_below_crash None (after None (alice_bets ++ second_round)) Hr).
Defined.

(** *** The crash point of every round *)

Lemma crash_range_step l s s' :
  step l s = Some s' -> crash_in_range s -> crash_in_range s'.
Proof.
  intros Hstep Hs.
  assert (Hnew : forall r t1 t2 g cp,
             crashPoint (newRound r t1 t2 g) = Some cp ->
             Num.le (Num.dec 101 2) cp = true
             /\ Num.le cp (Num.of_Z 100) = true).
  { intros r t1 t2 g cp. unfold newRound, generateCrashPoint. srv.
    intros [= <-]. apply crashPointOf_in_range. }
  assert (Hupd : forall now st s0,
             crash_in_range s0 -> crash_in_range (updateMultiplier now st s0)).
  { intros now st s0 H0. unfold updateMultiplier, crash_in_range.
    destruct (negb _); [exact H0|].
    destruct (Num.ge _ _); [rewrite crashGame_gameState|]; srv; exact H0. }
  destruct (is_request l) eqn:Hl.
  { destruct (request_same_round l s s' Hl Hstep)
      as ((_ & _ & _ & _ & Hc & _) & _).
    unfold crash_in_range. rewrite Hc. exact Hs. }
  destruct l; try discriminate Hl; cbn [step] in Hstep; unfold fires in Hstep.
  - destruct (booted s); [discriminate|]. simplify_eq.
    apply Hupd. unfold crash_in_range. srv. apply Hnew.
  - destruct (clearTimer _ _); [|discriminate]. simplify_eq.
    apply Hupd. exact Hs.
  - destruct (clearTimer _ _); [|discriminate]. simplify_eq. exact Hs.
  - destruct (clearTimer _ _); [|discriminate]. simplify_eq.
    apply Hupd. unfold crash_in_range. srv. apply Hnew.
Qed.

(** X3. In every reachable state the crash point of the round, once there
    is one, is between 1.01 and 100. *)
Theorem crashPoint_always_in_range d s cp
  (Hs : reachable d s) (Hcp : crashPoint (gameState s) = Some cp) :
  Num.le (Num.dec 101 2) cp = true /\ Num.le cp (Num.of_Z 100) = true.
Proof.
  revert cp Hcp. change (crash_in_range s).
  induction Hs as [|s l s' _ IH Hstep]; [discriminate|].
  eapply crash_range_step; eassumption.
Qed.

Lemma crashPoint_always_in_range_witness :
  reachable None (after None first_crash)
  /\ crashPoint (gameState (after None first_crash))
     = Some (crashPointOf (bytes_to_hex zero_entropy))
  /\ Num.le (Num.dec 101 2) (crashPointOf (bytes_to_hex zero_entropy)) = true
  /\ Num.le (crashPointOf (bytes_to_hex zero_entropy)) (Num.of_Z 100) = true.
Proof.
  assert (Hr : reachable None (after None first_crash)).
  { apply (run_reachable None first_crash (initial None));
      [constructor | vm_compute; reflexivity]. }
  assert (Hc : crashPoint (gameState (after None first_crash))
               = Some (crashPointOf (bytes_to_hex zero_entropy)))
    by (vm_compute; reflexivity).
  split; [exact Hr|]. split; [exact Hc|].
  exact (crashPoint_always_in_range None (after None first_crash)
           (crashPointOf (bytes_to_hex zero_entropy)) Hr Hc).
Defined.

(** ** The bets and the cashouts *)

Lemma written_gameState s s0 :
  written s s0 -> gameState s0 = gameState s /\ tasks s0 = tasks s
                  /\ cryptoPrices s0 = cryptoPrices s.
Proof. intros [->|[d ->]]; repeat split. Qed.

Lemma bet_record_players c s :
  players (gameState (bet_record c s))
  = <[bet_username c :=
        {| usdAmount := bet_usdAmount c; cryptoAmount := bet_cryptoAmount c;
           cryptoType := bet_cryptoType c;
           priceAtTime := price_of (cryptoPrices s) (bet_cryptoType c) |}]>
      (players (gameState s))
  /\ cashedOut (gameState (bet_record c s)) = cashedOut (gameState s)
  /\ tasks (bet_record c s) = tasks s /\ db (bet_record c s) = db s.
Proof. repeat split. Qed.

Lemma cashout_record_maps sid user bet pay usd s :
  players (gameState (cashout_record sid user bet pay usd s))
  = players (gameState s)
  /\ cashedOut (gameState (cashout_record sid user bet pay usd s))
     = <[user := {| cashout_multiplier := multiplier (gameState s);
                    payout := pay; usdPayout := usd |}]>
         (cashedOut (gameState s))
  /\ tasks (cashout_record sid user bet pay usd s) = tasks s
  /\ db (cashout_record sid user bet pay usd s) = db s.
Proof. repeat split. Qed.

(** a request keeps every key of the two maps *)
Lemma placeBet_keys rid b s :
  dom (players (gameState s)) ⊆ dom (players (gameState (placeBet rid b s)))
  /\ cashedOut (gameState (placeBet rid b s)) = cashedOut (gameState s).
Proof.
  destruct (placeBet_cases rid b s) as [[msg ->]|(c & _ & _ & _ & [[_ ->]|[_ ->]])];
    [split; reflexivity | split; reflexivity |].
  destruct (bet_checked_cases c (default_wallet (bet_username c)) s)
    as [->|[[_ ->]| [_ ->]]]; [split; reflexivity | split; reflexivity |].
  destruct (bet_record_players c s) as (-> & -> & _).
  split; [|reflexivity]. rewrite dom_insert_L. set_solver.
Qed.

Lemma cashout_keys sid user s :
  players (gameState (cashout sid user s)) = players (gameState s)
  /\ dom (cashedOut (gameState s))
     ⊆ dom (cashedOut (gameState (cashout sid user s))).
Proof.
  destruct (cashout_cases sid user s)
    as [(msg & -> & _)|(bet & pay & usd & _ & _ & [[_ ->]|[_ ->]])];
    [split; reflexivity | split; reflexivity |].
  destruct (cashout_record_maps sid user bet pay usd s) as (-> & -> & _).
  split; [reflexivity|]. rewrite dom_insert_L. set_solver.
Qed.

Lemma resume_keys t th now s :
  dom (players (gameState s)) ⊆ dom (players (gameState (resume t th now s)))
  /\ dom (cashedOut (gameState s))
     ⊆ dom (cashedOut (gameState (resume t th now s))).
Proof.
  destruct (resume_cases t th now s) as [[_ ->]|(s0 & Hw & _ & Hcase)];
    [split; reflexivity|].
  destruct (written_gameState s s0 Hw) as (Hg & _).
  destruct Hcase as [(c & _ & [->|[[w ->]|[->| ->]]])
                    |(sid & user & bet & pay & usd & _ & ->)].
  - srv. rewrite Hg. split; reflexivity.
  - srv. rewrite Hg. split; reflexivity.
  - srv. rewrite Hg. split; reflexivity.
  - destruct (bet_record_players c s0) as (-> & -> & _). rewrite Hg.
    split; [|reflexivity]. rewrite dom_insert_L. set_solver.
  - destruct (cashout_record_maps sid user bet pay usd s0) as (-> & -> & _).
    rewrite Hg. split; [reflexivity|]. rewrite dom_insert_L. set_solver.
Qed.

Lemma updateMultiplier_isBettingOpen now st s :
  isBettingOpen (gameState (updateMultiplier now st s))
  = isBettingOpen (gameState s).
Proof.
  unfold updateMultiplier. destruct (negb _); [reflexivity|].
  destruct (Num.ge _ _); [rewrite crashGame_gameState|]; reflexivity.
Qed.

Lemma startNewRound_isBettingOpen r c st s :
  isBettingOpen (gameState (startNewRound r c st s)) = false.
Proof.
  unfold startNewRound, roundStart. rewrite updateMultiplier_isBettingOpen.
  srv. unfold newRound. destruct (generateCrashPoint r). reflexivity.
Qed.

(** X4. The two maps are emptied by one step only, the end of the crash
    display, which empties both and opens the betting window; every other
    step keeps all the keys of both maps and does not open betting. *)
Theorem maps_cleared_together l s s' (Hstep : step l s = Some s') :
  (l = CrashDisplayOver
   /\ players (gameState s') = ∅ /\ cashedOut (gameState s') = ∅
   /\ isBettingOpen (gameState s') = true)
  \/ (dom (players (gameState s)) ⊆ dom (players (gameState s'))
      /\ dom (cashedOut (gameState s)) ⊆ dom (cashedOut (gameState s'))
      /\ (isBettingOpen (gameState s') = true ->
          isBettingOpen (gameState s) = true)).
Proof.
  destruct l; cbn [step] in Hstep; unfold fires in Hstep.
  - right. destruct (booted s); [discriminate|]. simplify_eq.
    destruct (startNewRound_keeps_maps random c save_throws (set_booted true s))
      as (-> & -> & _).
    rewrite startNewRound_isBettingOpen. repeat split; [done..|discriminate].
  - right. destruct (clearTimer _ _) as [r|]; [|discriminate]. simplify_eq.
    destruct (updateMultiplier_keeps_maps now save_throws (set_timers r s))
      as (-> & -> & _).
    rewrite updateMultiplier_isBettingOpen. repeat split; done.
  - left. destruct (clearTimer _ _) as [r|]; [|discriminate]. simplify_eq.
    repeat split.
  - right. destruct (clearTimer _ _) as [r|]; [|discriminate]. simplify_eq.
    unfold closeBetting.
    destruct (startNewRound_keeps_maps random c save_throws
                (upd (set_isBettingOpen false) (set_timers r s)))
      as (-> & -> & _).
    rewrite startNewRound_isBettingOpen. repeat split; [done..|discriminate].
  - right. simplify_eq. repeat split; done.
  - right. simplify_eq.
    destruct (placeBet_keys rid b s) as [Hp ->].
    destruct (placeBet_same_round rid b s) as ((_ & _ & _ & _ & _ & _ & ->) & _).
    repeat split; done.
  - right. simplify_eq.
    destruct (cashout_keys sid user s) as [-> Hc].
    destruct (cashout_same_round sid user s) as ((_ & _ & _ & _ & _ & _ & ->) & _).
    repeat split; done.
  - right. simplify_eq. unfold connection.
    destruct (isActive (gameState s)); repeat split; done.
  - right. destruct (tasks s !! i) as [t|]; [|discriminate]. simplify_eq.
    destruct (resume_keys t throws now (set_tasks (delete i (tasks s)) s))
      as [Hp Hc].
    destruct (resume_same_round t throws now (set_tasks (delete i (tasks s)) s))
      as ((_ & _ & _ & _ & _ & _ & ->) & _).
    repeat split; done.
Qed.

Lemma maps_cleared_together_witness :
  step CrashDisplayOver (after None first_crash)
  = Some (openBetting (set_timers [] (after None first_crash)))
  /\ ((CrashDisplayOver = CrashDisplayOver
       /\ players (gameState (openBetting (set_timers [] (after None first_crash))))
          = ∅
       /\ cashedOut (gameState (openBetting (set_timers [] (after None first_crash))))
          = ∅
       /\ isBettingOpen
            (gameState (openBetting (set_timers [] (after None first_crash))))
          = true)
      \/ (dom (players (gameState (after None first_crash)))
          ⊆ dom (players (gameState
                   (openBetting (set_timers [] (after None first_crash)))))
          /\ dom (cashedOut (gameState (after None first_crash)))
             ⊆ dom (cashedOut (gameState
                      (openBetting (set_timers [] (after None first_crash)))))
          /\ (isBettingOpen
                (gameState (openBetting (set_timers [] (after None first_crash))))
              = true ->
              isBettingOpen (gameState (after None first_crash)) = true))).
Proof.
  assert (Hstep : step CrashDisplayOver (after None first_crash)
                  = Some (openBetting (set_timers [] (after None first_crash))))
    by (vm_compute; reflexivity).
  split; [exact Hstep|].
  exact (maps_cleared_together CrashDisplayOver (after None first_crash)
           (openBetting (set_timers [] (after None first_crash))) Hstep).
Defined.

(** *** Without a database *)

Lemma keeps_maps_no_db s s' : keeps_maps s s' -> no_db s -> no_db s'.
Proof.
  intros (Hp & Hc & Ht & _ & _ & Hw) (Hdb & Htasks & Hsub).
  unfold no_db, cashouts_have_bets. rewrite Hp, Hc, Ht.
  repeat split; [|assumption..].
  rewrite Hdb in Hw. destruct (db s'); [discriminate|reflexivity].
Qed.

Lemma no_db_step l s s' : step l s = Some s' -> no_db s -> no_db s'.
Proof.
  intros Hstep Hs. pose proof Hs as (Hdb & Htasks & Hsub).
  assert (Hnone : ~ is_Some (db s)) by (rewrite Hdb; intros [? ?]; discriminate).
  destruct l; cbn [step] in Hstep; unfold fires in Hstep.
  - destruct (booted s); [discriminate|]. simplify_eq.
    eapply keeps_maps_no_db; [apply startNewRound_keeps_maps|]. exact Hs.
  - destruct (clearTimer _ _) as [r|]; [|discriminate]. simplify_eq.
    eapply keeps_maps_no_db; [apply updateMultiplier_keeps_maps|]. exact Hs.
  - destruct (clearTimer _ _) as [r|]; [|discriminate]. simplify_eq.
    unfold openBetting, no_db, cashouts_have_bets. srv.
    repeat split; [assumption..|]. rewrite !dom_empty_L. done.
  - destruct (clearTimer _ _) as [r|]; [|discriminate]. simplify_eq.
    eapply keeps_maps_no_db; [apply startNewRound_keeps_maps|]. exact Hs.
  - simplify_eq. exact Hs.
  - simplify_eq.
    destruct (placeBet_cases rid b s)
      as [[msg ->]|(c & _ & _ & _ & [[Hsome _]|[_ ->]])];
      [exact Hs | contradiction |].
    destruct (bet_checked_cases c (default_wallet (bet_username c)) s)
      as [->|[[Hsome _]|[_ ->]]]; [exact Hs | contradiction |].
    unfold no_db, cashouts_have_bets.
    destruct (bet_record_players c s) as (-> & -> & -> & ->).
    repeat split; [assumption..|]. rewrite dom_insert_L.
    unfold cashouts_have_bets in Hsub. set_solver.
  - simplify_eq.
    destruct (cashout_cases sid user s)
      as [(msg & -> & _)|(bet & pay & usd & Hbet & _ & [[Hsome _]|[_ ->]])];
      [exact Hs | contradiction |].
    unfold no_db, cashouts_have_bets.
    destruct (cashout_record_maps sid user bet pay usd s) as (-> & -> & -> & ->).
    repeat split; [assumption..|]. rewrite dom_insert_L.
    assert (Hin : user ∈ dom (players (gameState s))) by (apply elem_of_dom; eauto).
    unfold cashouts_have_bets in Hsub. set_solver.
  - simplify_eq. unfold connection.
    destruct (isActive (gameState s)); exact Hs.
  - rewrite Htasks in Hstep. discriminate.
Qed.

(** X5. Without a database no handler is ever suspended, and in every
    reachable state each player who cashed out has a bet in [players]. *)
Theorem cashouts_have_bets_without_db s (Hs : reachable None s) :
  cashouts_have_bets s /\ tasks s = [] /\ db s = None.
Proof.
  assert (H : no_db s).
  { induction Hs as [|s l s' _ IH Hstep].
    - repeat split. unfold cashouts_have_bets. done.
    - eapply no_db_step; eassumption. }
  destruct H as (? & ? & ?). auto.
Qed.

Lemma cashouts_have_bets_without_db_witness :
  reachable None (after None (alice_bets ++ second_round ++ [SocketCashout 7 alice]))
  /\ cashouts_have_bets
       (after None (alice_bets ++ second_round ++ [SocketCashout 7 alice]))
  /\ tasks (after None (alice_bets ++ second_round ++ [SocketCashout 7 alice]))
     = []
  /\ db (after None (alice_bets ++ second_round ++ [SocketCashout 7 alice]))
     = None.
Proof.
  assert (Hr : reachable None
                 (after None
                    (alice_bets ++ second_round ++ [SocketCashout 7 alice]))).
  { apply (run_reachable None
             (alice_bets ++ second_round ++ [SocketCashout 7 alice])
             (initial None));
      [constructor | vm_compute; reflexivity]. }
  split; [exact Hr|].
  exact (cashouts_have_bets_without_db _ Hr).
Defined.

(** *** Every stored bet passed the validation *)

Lemma good_ctx_bet c p :
  good_ctx c ->
  good_bet {| usdAmount := bet_usdAmount c; cryptoAmount := bet_cryptoAmount c;
              cryptoType := bet_cryptoType c;
              priceAtTime := price_of p (bet_cryptoType c) |}.
Proof.
  intros (_ & Ht & Hlo & Hhi & Hk). repeat split; auto.
  cbn [priceAtTime]. unfold price_of. destruct Hk as [-> | ->]; cbn; eauto.
Qed.

Lemma bets_valid_insert c s0 s :
  gameState s0 = gameState s -> good_ctx c ->
  (forall user bet, players (gameState s) !! user = Some bet -> good_bet bet) ->
  forall user bet,
    players (gameState (bet_record c s0)) !! user = Some bet -> good_bet bet.
Proof.
  intros Hg Hc Hs user bet.
  destruct (bet_record_players c s0) as (-> & _). rewrite Hg.
  destruct (decide (bet_username c = user)) as [<-|Hne].
  - rewrite lookup_insert_eq. intros [= <-]. apply good_ctx_bet, Hc.
  - rewrite lookup_insert_ne by exact Hne. apply Hs.
Qed.

Lemma keeps_maps_bets_valid s s' : keeps_maps s s' -> bets_valid s -> bets_valid s'.
Proof.
  intros (Hp & _ & Ht & _) [Hb Hts]. unfold bets_valid. rewrite Hp, Ht. auto.
Qed.

Lemma bets_valid_step l s s' : step l s = Some s' -> bets_valid s -> bets_valid s'.
Proof.
  intros Hstep Hs. pose proof Hs as [Hb Ht].
  destruct l; cbn [step] in Hstep; unfold fires in Hstep.
  - destruct (booted s); [discriminate|]. simplify_eq.
    eapply keeps_maps_bets_valid; [apply startNewRound_keeps_maps|]. exact Hs.
  - destruct (clearTimer _ _) as [r|]; [|discriminate]. simplify_eq.
    eapply keeps_maps_bets_valid; [apply updateMultiplier_keeps_maps|]. exact Hs.
  - destruct (clearTimer _ _) as [r|]; [|discriminate]. simplify_eq.
    split; [|exact Ht]. unfold openBetting. srv. intros user bet.
    rewrite lookup_empty. discriminate.
  - destruct (clearTimer _ _) as [r|]; [|discriminate]. simplify_eq.
    eapply keeps_maps_bets_valid; [apply startNewRound_keeps_maps|]. exact Hs.
  - simplify_eq. exact Hs.
  - simplify_eq.
    destruct (placeBet_cases rid b s)
      as [[msg ->]|(c & Hc & _ & _ & [[_ ->]|[_ ->]])]; [exact Hs| |].
    + split; [exact Hb|]. srv. apply Forall_app. split; [exact Ht|].
      constructor; [|constructor]. eapply ctx_of_good, Hc.
    + destruct (bet_checked_cases c (default_wallet (bet_username c)) s)
        as [->|[[_ ->]|[_ ->]]]; [exact Hs| |].
      * split; [exact Hb|]. srv. apply Forall_app. split; [exact Ht|].
        constructor; [|constructor]. eapply ctx_of_good, Hc.
      * split; [|exact Ht].
        apply (bets_valid_insert c s s); [reflexivity| |exact Hb].
        eapply ctx_of_good, Hc.
  - simplify_eq.
    destruct (cashout_cases sid user s)
      as [(msg & -> & _)|(bet & pay & usd & _ & _ & [[_ ->]|[_ ->]])];
      [exact Hs| |exact Hs].
    split; [exact Hb|]. srv. apply Forall_app. split; [exact Ht|].
    constructor; [exact I|constructor].
  - simplify_eq. unfold connection.
    destruct (isActive (gameState s)); exact Hs.
  - destruct (tasks s !! i) as [t|] eqn:Hi; [|discriminate]. simplify_eq.
    assert (Hgt : good_task t).
    { eapply Forall_lookup_1; eassumption. }
    assert (Hrest : Forall good_task (delete i (tasks s))).
    { eapply Forall_delete, Ht. }
    set (s1 := set_tasks (delete i (tasks s)) s).
    destruct (resume_cases t throws now s1) as [[_ ->]|(s0 & Hw & _ & Hcase)];
      [split; assumption|].
    destruct (written_gameState s1 s0 Hw) as (Hg & Hts & _).
    destruct Hcase as [(c & Hc & Hcase)|(sid & user & bet & pay & usd & _ & ->)].
    + assert (Hgc : good_ctx c).
      { destruct t; cbn in Hc; simplify_eq; exact Hgt. }
      destruct Hcase as [->|[[w ->]|[->| ->]]].
      * split; srv; rewrite ?Hg, ?Hts; assumption.
      * split; srv; rewrite ?Hg, ?Hts; [assumption|].
        apply Forall_app. split; [exact Hrest|]. constructor; [exact Hgc|constructor].
      * split; srv; rewrite ?Hg, ?Hts; [assumption|].
        apply Forall_app. split; [exact Hrest|]. constructor; [exact Hgc|constructor].
      * split.
        -- apply (bets_valid_insert c s0 s1); [exact Hg|exact Hgc|exact Hb].
        -- destruct (bet_record_players c s0) as (_ & _ & -> & _).
           rewrite Hts. exact Hrest.
    + destruct (cashout_record_maps sid user bet pay usd s0) as (Hp & _ & Htk & _).
      split.
      * rewrite Hp, Hg. exact Hb.
      * rewrite Htk, Hts. exact Hrest.
Qed.

(** X6. In every reachable state, with or without a database, each bet in
    [players] passed the tests of the handler: its amount is truthy and,
    read as a number, neither below 1 nor above 1000; an amount that is a
    number is from 1 to 1000; the asset is BTC or ETH and the bet has the
    price it was stored at. The handler does not test that the amount is a
    number: see [nonnumeric_amount_is_stored]. *)
Theorem stored_bets_valid d s user bet
  (Hs : reachable d s) (Hbet : players (gameState s) !! user = Some bet) :
  json_truthy (usdAmount bet) = true
  /\ Num.lt (json_number (usdAmount bet)) (Num.of_Z 1) = false
  /\ Num.gt (json_number (usdAmount bet)) (Num.of_Z 1000) = false
  /\ (forall x, usdAmount bet = JNumber x ->
        Num.le (Num.of_Z 1) x = true /\ Num.le x (Num.of_Z 1000) = true)
  /\ (cryptoType bet = "BTC"%string \/ cryptoType bet = "ETH"%string)
  /\ is_Some (priceAtTime bet).
Proof.
  assert (H : bets_valid s).
  { clear Hbet. induction Hs as [|s l s' _ IH Hstep].
    - split; [|constructor]. intros u b. cbn. rewrite lookup_empty. discriminate.
    - eapply bets_valid_step; eassumption. }
  destruct H as [H _].
  destruct (H user bet Hbet) as (Ht & Hlo & Hhi & Hk & Hp).
  split; [exact Ht|]. split; [exact Hlo|]. split; [exact Hhi|].
  split; [|split; [exact Hk | exact Hp]].
  intros x Hx. rewrite Hx in Ht, Hlo, Hhi.
  exact (number_from_1_to_1000 x Ht Hlo Hhi).
Qed.

Lemma stored_bets_valid_witness :
  reachable (Some empty_db) (after (Some empty_db) alice_bets_db)
  /\ players (gameState (after (Some empty_db) alice_bets_db)) !! alice
     = Some alice_bet
  /\ (json_truthy (usdAmount alice_bet) = true
      /\ Num.lt (json_number (usdAmount alice_bet)) (Num.of_Z 1) = false
      /\ Num.gt (json_number (usdAmount alice_bet)) (Num.of_Z 1000) = false
      /\ (forall x, usdAmount alice_bet = JNumber x ->
            Num.le (Num.of_Z 1) x = true /\ Num.le x (Num.of_Z 1000) = true)
      /\ (cryptoType alice_bet = "BTC"%string
          \/ cryptoType alice_bet = "ETH"%string)
      /\ is_Some (priceAtTime alice_bet)).
Proof.
  assert (Hr : reachable (Some empty_db) (after (Some empty_db) alice_bets_db)).
  { apply (run_reachable (Some empty_db) alice_bets_db (initial (Some empty_db)));
      [constructor | vm_compute; reflexivity]. }
  assert (Hb : players (gameState (after (Some empty_db) alice_bets_db)) !! alice
               = Some alice_bet) by (vm_compute; reflexivity).
  split; [exact Hr|]. split; [exact Hb|].
  exact (stored_bets_valid (Some empty_db) (after (Some empty_db) alice_bets_db)
           alice alice_bet Hr Hb).
Defined.

(** The handler never tests the type of the amount. The string ["abc"] is
    truthy and its number, NaN, is neither below 1 nor above 1000; the
    amount in the asset is NaN, which no balance is below: the bet is
    stored and answered with success. *)
Lemma nonnumeric_amount_is_stored :
  let b := {| body_username := Some alice;
              body_usdAmount := Some (JString "abc" Num.nan);
              body_cryptoType := Some "BTC"%string |} in
  let tr := first_crash ++ [CrashDisplayOver; PostBet 1 b] in
  let s := after None tr in
  run tr (initial None) = Some s
  /\ (exists p,
        players (gameState s) !! alice
        = Some {| usdAmount := JString "abc" Num.nan; cryptoAmount := Num.nan;
                  cryptoType := "BTC"; priceAtTime := Some p |})
  /\ exists r, last (responses s) = Some (1%nat, r)
               /\ status r = 200 /\ success r = true.
Proof.
  cbv zeta. split; [vm_compute; reflexivity|].
  split; eexists; [vm_compute; reflexivity|].
  split; [vm_compute; reflexivity|]. split; reflexivity.
Qed.

(** ** What the two handlers answer *)


(** X8. A player who has a bet in [players] cannot place another: a valid
    request is answered "Already placed bet this round" and nothing else
    changes, whatever the phase. *)
Theorem duplicate_bet_rejected rid b s user usd ct bet
  (Hvalid : valid_body b user usd ct)
  (Hbet : players (gameState s) !! user = Some bet) :
  placeBet rid b s
  = respond rid (bad_request "Already placed bet this round") s.
Proof.
  destruct Hvalid as (-> & Hu & Ht & Hlo & Hhi & Hk).
  unfold placeBet. cbn [body_username body_usdAmount body_cryptoType].
  apply String.eqb_neq in Hu. rewrite Hu, Ht, Hlo, Hhi, Hbet.
  destruct Hk as [-> | ->]; reflexivity.
Qed.

Lemma duplicate_bet_rejected_witness :
  valid_body (bet10 alice) alice (JNumber (Num.of_Z 10)) "BTC"
  /\ players (gameState (after None alice_bets)) !! alice = Some alice_bet
  /\ placeBet 2 (bet10 alice) (after None alice_bets)
     = respond 2 (bad_request "Already placed bet this round")
         (after None alice_bets).
Proof.
  assert (Hv : valid_body (bet10 alice) alice (JNumber (Num.of_Z 10)) "BTC").
  { repeat split; [discriminate | left; reflexivity]. }
  assert (Hb : players (gameState (after None alice_bets)) !! alice
               = Some alice_bet) by (vm_compute; reflexivity).
  split; [exact Hv|]. split; [exact Hb|].
  exact (duplicate_bet_rejected 2 (bet10 alice) (after None alice_bets) alice
           (JNumber (Num.of_Z 10)) "BTC" alice_bet Hv Hb).
Defined.

(** X9. Without a database a player is paid once: after a cashout that was
    recorded, a second one is answered "Already cashed out" and the record
    stays as it is. *)
Theorem cashout_only_once s sid sid' user bet
  (Hdb : db s = None)
  (Hbet : players (gameState s) !! user = Some bet)
  (Hfresh : cashedOut (gameState s) !! user = None) :
  cashout sid' user (cashout sid user s)
  = socket_emit sid' "error" [("message", VStr "Already cashed out")]
      (cashout sid user s)
  /\ cashedOut (gameState (cashout sid' user (cashout sid user s)))
     = cashedOut (gameState (cashout sid user s)).
Proof.
  assert (H1 : cashout sid user s
               = cashout_record sid user bet
                   (Num.mul (cryptoAmount bet) (multiplier (gameState s)))
                   (Num.mul (Num.mul (cryptoAmount bet) (multiplier (gameState s)))
                      (undef_to_num
                         (price_of (cryptoPrices s) (cryptoType bet)))) s).
  { unfold cashout. rewrite Hbet, Hfresh, Hdb. reflexivity. }
  assert (H2 : cashout sid' user (cashout sid user s)
               = socket_emit sid' "error"
                   [("message", VStr "Already cashed out")]
                   (cashout sid user s)).
  { rewrite H1. unfold cashout at 1.
    destruct (cashout_record_maps sid user bet
                (Num.mul (cryptoAmount bet) (multiplier (gameState s)))
                (Num.mul (Num.mul (cryptoAmount bet) (multiplier (gameState s)))
                   (undef_to_num (price_of (cryptoPrices s) (cryptoType bet))))
                s) as (-> & -> & _).
    rewrite Hbet, lookup_insert_eq. reflexivity. }
  split; [exact H2|]. rewrite H2. reflexivity.
Qed.

Lemma cashout_only_once_witness :
  db (after None (alice_bets ++ second_round)) = None
  /\ players (gameState (after None (alice_bets ++ second_round))) !! alice
     = Some alice_bet
  /\ cashedOut (gameState (after None (alice_bets ++ second_round))) !! alice
     = None
  /\ (cashout 8 alice (cashout 7 alice (after None (alice_bets ++ second_round)))
      = socket_emit 8 "error" [("message", VStr "Already cashed out")]
          (cashout 7 alice (after None (alice_bets ++ second_round)))
      /\ cashedOut
           (gameState
              (cashout 8 alice
                 (cashout 7 alice (after None (alice_bets ++ second_round)))))
         = cashedOut
             (gameState
                (cashout 7 alice (after None (alice_bets ++ second_round))))).
Proof.
  split; [vm_compute; reflexivity|].
  split; [vm_compute; reflexivity|].
  split; [vm_compute; reflexivity|].
  apply (cashout_only_once (after None (alice_bets ++ second_round)) 7 8 alice
           alice_bet); vm_compute; reflexivity.
Defined.

(** X10. Without a database a bet and a cashout can follow each other
    while the round is not active: the bet is stored at the price of the
    moment, and the cashout pays it at the multiplier left by the last
    round, with no wait for the next one. *)
Theorem bet_then_cashout_between_rounds s rid sid b user usd ct
  (Hdb : db s = None)
  (Hidle : isActive (gameState s) = false)
  (Hvalid : valid_body b user usd ct)
  (Hnobet : players (gameState s) !! user = None)
  (Hnoout : cashedOut (gameState s) !! user = None)
  (Hfunds : Num.lt (undef_to_num (default_balances !! ct))
              (Num.div (json_number usd) (undef_to_num (price_of (cryptoPrices s) ct)))
            = false) :
  let amount := Num.div (json_number usd) (undef_to_num (price_of (cryptoPrices s) ct)) in
  let pay := Num.mul amount (multiplier (gameState s)) in
  cashedOut (gameState (cashout sid user (placeBet rid b s))) !! user
  = Some {| cashout_multiplier := multiplier (gameState s);
            payout := pay;
            usdPayout :=
              Num.mul pay (undef_to_num (price_of (cryptoPrices s) ct)) |}.
Proof.
  cbv zeta. destruct Hvalid as (-> & Hu & Ht & Hlo & Hhi & Hk).
  assert (Hbet : placeBet rid
                   {| body_username := Some user; body_usdAmount := Some usd;
                      body_cryptoType := Some ct |} s
                 = bet_record
                     {| bet_request := rid; bet_username := user;
                        bet_usdAmount := usd; bet_cryptoType := ct;
                        bet_cryptoAmount :=
                          Num.div (json_number usd)
                            (undef_to_num (price_of (cryptoPrices s) ct)) |} s).
  { unfold placeBet. cbn [body_username body_usdAmount body_cryptoType].
    apply String.eqb_neq in Hu. rewrite Hu, Ht, Hlo, Hhi, Hnobet, Hidle, Hdb.
    assert (Hct : negb (String.eqb ct "BTC" || String.eqb ct "ETH") = false)
      by (destruct Hk as [-> | ->]; reflexivity).
    assert (Hc : String.eqb ct "" = false)
      by (destruct Hk as [-> | ->]; reflexivity).
    rewrite Hct, Hc. cbn [orb negb].
    unfold bet_checked.
    cbn [bet_cryptoType bet_cryptoAmount default_wallet balances].
    rewrite Hfunds, Hdb. reflexivity. }
  rewrite Hbet. unfold cashout.
  destruct (bet_record_players
              {| bet_request := rid; bet_username := user;
                 bet_usdAmount := usd; bet_cryptoType := ct;
                 bet_cryptoAmount :=
                   Num.div (json_number usd) (undef_to_num (price_of (cryptoPrices s) ct)) |}
              s) as (-> & -> & _ & ->).
  cbn [bet_username bet_usdAmount bet_cryptoType bet_cryptoAmount].
  rewrite lookup_insert_eq, Hnoout, Hdb.
  rewrite cashout_record_lookup. reflexivity.
Qed.

Lemma bet_then_cashout_between_rounds_witness :
  db (after None (first_crash ++ [CrashDisplayOver])) = None
  /\ isActive (gameState (after None (first_crash ++ [CrashDisplayOver]))) = false
  /\ valid_body (bet10 alice) alice (JNumber (Num.of_Z 10)) "BTC"
  /\ players (gameState (after None (first_crash ++ [CrashDisplayOver]))) !! alice
     = None
  /\ cashedOut (gameState (after None (first_crash ++ [CrashDisplayOver]))) !! alice
     = None
  /\ let s := after None (first_crash ++ [CrashDisplayOver]) in
     let amount :=
       Num.div (Num.of_Z 10) (undef_to_num (price_of (cryptoPrices s) "BTC")) in
     let pay := Num.mul amount (multiplier (gameState s)) in
     cashedOut (gameState (cashout 7 alice (placeBet 1 (bet10 alice) s))) !! alice
     = Some {| cashout_multiplier := multiplier (gameState s);
               payout := pay;
               usdPayout :=
                 Num.mul pay (undef_to_num (price_of (cryptoPrices s) "BTC")) |}.
Proof.
  assert (Hv : valid_body (bet10 alice) alice (JNumber (Num.of_Z 10)) "BTC").
  { repeat split; [discriminate | left; reflexivity]. }
  split; [vm_compute; reflexivity|].
  split; [vm_compute; reflexivity|].
  split; [exact Hv|].
  split; [vm_compute; reflexivity|].
  split; [vm_compute; reflexivity|].
  apply (bet_then_cashout_between_rounds
           (after None (first_crash ++ [CrashDisplayOver])) 1 7 (bet10 alice)
           alice (JNumber (Num.of_Z 10)) "BTC"); try exact Hv;
    vm_compute; reflexivity.
Defined.

(** ** The wallets of the database *)

Lemma find_app_new user w ws :
  List.find (fun w => String.eqb (username w) user) ws = None ->
  username w = user ->
  List.find (fun w => String.eqb (username w) user) (ws ++ [w]) = Some w.
Proof.
  intros Hnone Hw. induction ws as [|x ws IH]; cbn [List.find app] in *.
  - rewrite Hw, String.eqb_refl. reflexivity.
  - destruct (String.eqb (username x) user); [discriminate|]. apply IH, Hnone.
Qed.

(** X11. With a database, the first [getOrCreateWallet] of a player stores
    a wallet with the default balances, and the next one returns that very
    wallet and stores nothing. *)
Theorem wallet_created_once store user now now'
  (Hnew : findOne store user = None) :
  let w := {| username := user; balances := default_balances;
              createdAt := Some now |} in
  getOrCreateWallet (Some store) user now false false
  = (w, Some (insertOne store w))
  /\ findOne (insertOne store w) user = Some w
  /\ getOrCreateWallet (Some (insertOne store w)) user now' false false
     = (w, Some (insertOne store w)).
Proof.
  cbv zeta.
  assert (Hfind : findOne
                    (insertOne store
                       {| username := user; balances := default_balances;
                          createdAt := Some now |}) user
                  = Some {| username := user; balances := default_balances;
                            createdAt := Some now |}).
  { unfold findOne, insertOne. cbn [wallets].
    apply find_app_new; [exact Hnew | reflexivity]. }
  unfold getOrCreateWallet. rewrite Hnew, Hfind. repeat split.
Qed.

Lemma wallet_created_once_witness :
  findOne empty_db alice = None
  /\ let w := {| username := alice; balances := default_balances;
                 createdAt := Some 13000 |} in
     getOrCreateWallet (Some empty_db) alice 13000 false false
     = (w, Some (insertOne empty_db w))
     /\ findOne (insertOne empty_db w) alice = Some w
     /\ getOrCreateWallet (Some (insertOne empty_db w)) alice 14000 false false
        = (w, Some (insertOne empty_db w)).
Proof.
  split; [reflexivity|].
  apply (wallet_created_once empty_db alice 13000 14000). reflexivity.
Defined.

Lemma update_first_find user f ws w :
  List.find (fun w => String.eqb (username w) user) ws = Some w ->
  username (f w) = username w ->
  List.find (fun w => String.eqb (username w) user) (update_first user f ws)
  = Some (f w).
Proof.
  intros Hfind Hf. induction ws as [|x ws IH]; cbn [List.find update_first] in *;
    [discriminate|].
  destruct (String.eqb (username x) user) eqn:Hx.
  - simplify_eq. cbn [List.find]. rewrite Hf, Hx. reflexivity.
  - cbn [List.find]. rewrite Hx. apply IH, Hfind.
Qed.

Lemma update_first_other user other f ws :
  other <> user ->
  (forall w, username (f w) = username w) ->
  List.find (fun w => String.eqb (username w) other) (update_first user f ws)
  = List.find (fun w => String.eqb (username w) other) ws.
Proof.
  intros Hne Hf. induction ws as [|x ws IH]; cbn [List.find update_first];
    [reflexivity|].
  destruct (String.eqb (username x) user) eqn:Hx; cbn [List.find].
  - rewrite Hf. apply String.eqb_eq in Hx.
    assert (String.eqb (username x) other = false) as ->
      by (apply String.eqb_neq; congruence).
    reflexivity.
  - destruct (String.eqb (username x) other); [reflexivity|]. apply IH.
Qed.

Lemma update_first_missing user f ws :
  List.find (fun w => String.eqb (username w) user) ws = None ->
  update_first user f ws = ws.
Proof.
  induction ws as [|x ws IH]; cbn [List.find update_first]; [reflexivity|].
  destruct (String.eqb (username x) user); [discriminate|].
  intros H. rewrite IH by exact H. reflexivity.
Qed.

(** X12. [updateOne] with [$inc] adds the amount to the balance of the
    asset in the wallet of the player and leaves the wallets of the other
    players as they are. *)
Theorem updateOne_balance d user k x w b
  (Hw : findOne d user = Some w)
  (Hb : balances w !! k = Some b) :
  (exists w',
      findOne (updateOne d user k x) user = Some w'
      /\ balances w' !! k = Some (Num.add b x)
      /\ forall k', k' <> k -> balances w' !! k' = balances w !! k')
  /\ forall other,
      other <> user -> findOne (updateOne d user k x) other = findOne d other.
Proof.
  split.
  - exists (inc_balance k x w). split; [|split].
    + unfold findOne, updateOne. cbn [wallets].
      apply update_first_find; [exact Hw | reflexivity].
    + unfold inc_balance. cbn [balances]. rewrite Hb. apply lookup_insert_eq.
    + intros k' Hk'. unfold inc_balance. cbn [balances].
      apply lookup_insert_ne. congruence.
  - intros other Hne. unfold findOne, updateOne. cbn [wallets].
    apply update_first_other; [exact Hne | reflexivity].
Qed.

Lemma updateOne_balance_witness :
  findOne (db_of (after (Some empty_db) alice_bets_db)) alice
  = Some (default (default_wallet alice)
            (findOne (db_of (after (Some empty_db) alice_bets_db)) alice))
  /\ balances (default (default_wallet alice)
                 (findOne (db_of (after (Some empty_db) alice_bets_db)) alice))
       !! "ETH" = Some (Num.of_Z 1)
  /\ ((exists w',
          findOne (updateOne (db_of (after (Some empty_db) alice_bets_db))
                     alice "ETH" (Num.of_Z 2)) alice = Some w'
          /\ balances w' !! "ETH" = Some (Num.add (Num.of_Z 1) (Num.of_Z 2))
          /\ forall k', k' <> "ETH"%string ->
               balances w' !! k'
               = balances
                   (default (default_wallet alice)
                      (findOne (db_of (after (Some empty_db) alice_bets_db))
                         alice)) !! k')
      /\ forall other,
          other <> alice ->
          findOne (updateOne (db_of (after (Some empty_db) alice_bets_db))
                     alice "ETH" (Num.of_Z 2)) other
          = findOne (db_of (after (Some empty_db) alice_bets_db)) other).
Proof.
  split; [vm_compute; reflexivity|].
  split; [vm_compute; reflexivity|].
  apply (updateOne_balance (db_of (after (Some empty_db) alice_bets_db)) alice
           "ETH" (Num.of_Z 2)); vm_compute; reflexivity.
Defined.

(** X13. [updateOne] on a player who has no wallet changes nothing: there
    is no upsert, the amount is lost. *)
Theorem updateOne_without_wallet d user k x
  (Hnone : findOne d user = None) :
  updateOne d user k x = d.
Proof.
  unfold updateOne, findOne in *. rewrite update_first_missing by exact Hnone.
  destruct d. reflexivity.
Qed.

Lemma updateOne_without_wallet_witness :
  findOne empty_db alice = None
  /\ updateOne empty_db alice "BTC" (Num.of_Z 1) = empty_db.
Proof.
  split; [reflexivity|].
  apply (updateOne_without_wallet empty_db alice "BTC" (Num.of_Z 1)).
  reflexivity.
Defined.

(** ** The seed and its digest *)

(** X14. [parseInt(h, 16)] reads back a 32-bit word printed on eight
    hexadecimal digits, as the first eight characters of a digest are:
    the result is the word itself, exactly. *)
Theorem parseInt_reads_hex8 w :
  Hex.parseInt16 (Hex.hex8 w) = Num.of_Z (w mod 2 ^ 32)
  /\ String.length (Hex.hex8 w) = 8%nat.
Proof. split; [apply parseInt16_hex8 | reflexivity]. Qed.

Lemma hex2_append b r :
  Hex.hex2 b +:+ r
  = String (Hex.digit (Hex.nibble b 1)) (String (Hex.digit (Hex.nibble b 0)) r).
Proof. reflexivity. Qed.

Lemma bytes_to_hex_length bs :
  String.length (bytes_to_hex bs) = (2 * length bs)%nat.
Proof.
  induction bs as [|b bs IH]; [reflexivity|].
  change (bytes_to_hex (b :: bs))
    with (Hex.hex2 (Z.of_N (Byte.to_N b)) +:+ bytes_to_hex bs).
  rewrite hex2_append. cbn [String.length length]. rewrite IH. lia.
Qed.

Lemma bytes_to_hex_digits bs : all_hex (bytes_to_hex bs).
Proof.
  induction bs as [|b bs IH]; [exact I|].
  change (bytes_to_hex (b :: bs))
    with (Hex.hex2 (Z.of_N (Byte.to_N b)) +:+ bytes_to_hex bs).
  rewrite hex2_append. cbn [all_hex].
  destruct (digit_facts _ (nibble_range (Z.of_N (Byte.to_N b)) 1))
    as (_ & -> & _).
  destruct (digit_facts _ (nibble_range (Z.of_N (Byte.to_N b)) 0))
    as (_ & -> & _).
  eauto.
Qed.

(** X15. The seed of a round is the hexadecimal print of the random bytes:
    two digits per byte, 64 for the 32 bytes the server draws. *)
Theorem seed_is_hex random :
  snd (generateCrashPoint random) = bytes_to_hex random
  /\ String.length (snd (generateCrashPoint random)) = (2 * length random)%nat
  /\ all_hex (snd (generateCrashPoint random))
  /\ fst (generateCrashPoint random) = crashPointOf (snd (generateCrashPoint random)).
Proof.
  cbn [generateCrashPoint fst snd].
  repeat split; [apply bytes_to_hex_length | apply bytes_to_hex_digits].
Qed.

(** ** The wallet and the login routes *)

(** X16. [POST /api/wallet] lists every asset of the wallet and no other,
    each with its amount and the amount times the current price of the
    asset. *)
Theorem walletRoute_lists_balances d p user now ft it :
  let '(r, d') := walletRoute d p user now ft it in
  let '(w, d'') := getOrCreateWallet d user now ft it in
  d' = d'' /\ reply_username r = user
  /\ dom (reply_balances r) = dom (balances w)
  /\ forall k,
      reply_balances r !! k
      = (fun a => {| amount := a;
                     usdValue := Num.mul a (undef_to_num (price_of p k)) |})
        <$> balances w !! k.
Proof.
  unfold walletRoute. destruct (getOrCreateWallet d user now ft it) as [w d'].
  cbn [reply_username reply_balances].
  assert (Hk : forall k,
             balancesWithUSD p (balances w) !! k
             = (fun a => {| amount := a;
                            usdValue :=
                              Num.mul a (undef_to_num (price_of p k)) |})
               <$> balances w !! k).
  { intros k. unfold balancesWithUSD. rewrite map_lookup_imap.
    destruct (balances w !! k); reflexivity. }
  repeat split; [|exact Hk].
  apply set_eq. intros k. rewrite !elem_of_dom, Hk.
  destruct (balances w !! k); cbn; split; intros [? ?]; eauto; discriminate.
Qed.

Lemma findUser_app_new name u us :
  findUser us name = None -> user_username u = name ->
  findUser (us ++ [u]) name = Some u.
Proof.
  unfold findUser. intros Hnone Hu.
  induction us as [|x us IH]; cbn [List.find app] in *.
  - rewrite Hu, String.eqb_refl. reflexivity.
  - destruct (String.eqb (user_username x) name); [discriminate|].
    apply IH, Hnone.
Qed.

(** X17. The first login of a name registers it with the password given
    and a balance of 1000; after that the same password logs in and
    changes nothing, and any other password is answered 401 "Invalid
    password" and changes nothing. *)
Theorem login_registers_then_checks us name pw pw' now now' thrown
  (Hname : name <> ""%string) (Hpw : pw <> ""%string) (Hpw' : pw' <> ""%string)
  (Hother : pw' <> pw)
  (Hnew : findUser us name = None) :
  let u := {| user_username := name; user_password := pw;
              user_balance := Num.of_Z 1000; user_createdAt := now |} in
  login (Some us) {| login_username := Some name; login_password := Some pw |}
    now false false thrown
  = (login_ok u, Some (us ++ [u]))
  /\ login (Some (us ++ [u]))
       {| login_username := Some name; login_password := Some pw |}
       now' false false thrown
     = (login_ok u, Some (us ++ [u]))
  /\ login (Some (us ++ [u]))
       {| login_username := Some name; login_password := Some pw' |}
       now' false false thrown
     = (login_error 401 "Invalid password", Some (us ++ [u])).
Proof.
  cbv zeta. unfold login. cbn [login_username login_password].
  apply String.eqb_neq in Hname, Hpw, Hpw'. rewrite Hname, Hpw, Hpw'.
  cbn [orb]. rewrite Hnew.
  rewrite (findUser_app_new name
             {| user_username := name; user_password := pw;
                user_balance := Num.of_Z 1000; user_createdAt := now |}
             us Hnew eq_refl).
  cbn [user_password]. rewrite String.eqb_refl.
  assert (String.eqb pw pw' = false) as ->
    by (apply String.eqb_neq; congruence).
  repeat split.
Qed.

Lemma login_registers_then_checks_witness :
  alice <> ""%string /\ "secret"%string <> ""%string
  /\ "guess"%string <> ""%string /\ "guess"%string <> "secret"%string
  /\ findUser [] alice = None
  /\ let u := {| user_username := alice; user_password := "secret";
                 user_balance := Num.of_Z 1000; user_createdAt := 5 |} in
     login (Some [])
       {| login_username := Some alice; login_password := Some "secret"%string |}
       5 false false "boom"
     = (login_ok u, Some ([] ++ [u]))
     /\ login (Some ([] ++ [u]))
          {| login_username := Some alice;
             login_password := Some "secret"%string |}
          6 false false "boom"
        = (login_ok u, Some ([] ++ [u]))
     /\ login (Some ([] ++ [u]))
          {| login_username := Some alice;
             login_password := Some "guess"%string |}
          6 false false "boom"
        = (login_error 401 "Invalid password", Some ([] ++ [u])).
Proof.
  split; [discriminate|]. split; [discriminate|]. split; [discriminate|].
  split; [discriminate|]. split; [reflexivity|].
  apply (login_registers_then_checks [] alice "secret" "guess" 5 6 "boom");
    first [discriminate | reflexivity].
Defined.

(** X18. Without a database every login that names a user and a password
    is answered with status 500: unlike the wallet, the route has no
    fallback. *)
Theorem login_without_database b name pw now ft it thrown
  (Hname : login_username b = Some name) (Hpw : login_password b = Some pw)
  (Hn : name <> ""%string) (Hp : pw <> ""%string) :
  login None b now ft it thrown = (login_error 500 thrown, None).
Proof.
  unfold login. rewrite Hname, Hpw.
  apply String.eqb_neq in Hn, Hp. rewrite Hn, Hp. reflexivity.
Qed.

Lemma login_without_database_witness :
  login_username {| login_username := Some alice;
                    login_password := Some "secret"%string |} = Some alice
  /\ login_password {| login_username := Some alice;
                       login_password := Some "secret"%string |}
     = Some "secret"%string
  /\ alice <> ""%string /\ "secret"%string <> ""%string
  /\ login None
       {| login_username := Some alice; login_password := Some "secret"%string |}
       5 false false "boom"
     = (login_error 500 "boom", None).
Proof.
  split; [reflexivity|]. split; [reflexivity|].
  split; [discriminate|]. split; [discriminate|].
  apply (login_without_database _ alice "secret" 5 false false "boom");
    first [reflexivity | discriminate].
Defined.

(** X19. A request, a price update or a reply of the database never
    changes the phase, the round, its start, the multiplier, the crash
    point, the seed, or the pending timer: only the timers of the round
    do. *)
Theorem requests_keep_round l s s'
  (Hl : is_request l = true) (Hstep : step l s = Some s') :
  isActive (gameState s') = isActive (gameState s)
  /\ isBettingOpen (gameState s') = isBettingOpen (gameState s)
  /\ roundId (gameState s') = roundId (gameState s)
  /\ startTime (gameState s') = startTime (gameState s)
  /\ multiplier (gameState s') = multiplier (gameState s)
  /\ crashPoint (gameState s') = crashPoint (gameState s)
  /\ seed (gameState s') = seed (gameState s)
  /\ timers s' = timers s.
Proof.
  destruct (request_same_round l s s' Hl Hstep)
    as ((Ha & Hr & Hst & Hm & Hc & Hsd & Hb) & Ht & _).
  repeat split; assumption.
Qed.

Lemma requests_keep_round_witness :
  is_request (SocketCashout 7 alice) = true
  /\ step (SocketCashout 7 alice) (after None (alice_bets ++ second_round))
     = Some (cashout 7 alice (after None (alice_bets ++ second_round)))
  /\ (isActive (gameState (cashout 7 alice (after None (alice_bets ++ second_round))))
      = isActive (gameState (after None (alice_bets ++ second_round)))
      /\ isBettingOpen
           (gameState (cashout 7 alice (after None (alice_bets ++ second_round))))
         = isBettingOpen (gameState (after None (alice_bets ++ second_round)))
      /\ roundId (gameState (cashout 7 alice (after None (alice_bets ++ second_round))))
         = roundId (gameState (after None (alice_bets ++ second_round)))
      /\ startTime
           (gameState (cashout 7 alice (after None (alice_bets ++ second_round))))
         = startTime (gameState (after None (alice_bets ++ second_round)))
      /\ multiplier
           (gameState (cashout 7 alice (after None (alice_bets ++ second_round))))
         = multiplier (gameState (after None (alice_bets ++ second_round)))
      /\ crashPoint
           (gameState (cashout 7 alice (after None (alice_bets ++ second_round))))
         = crashPoint (gameState (after None (alice_bets ++ second_round)))
      /\ seed (gameState (cashout 7 alice (after None (alice_bets ++ second_round))))
         = seed (gameState (after None (alice_bets ++ second_round)))
      /\ timers (cashout 7 alice (after None (alice_bets ++ second_round)))
         = timers (after None (alice_bets ++ second_round))).
Proof.
  split; [reflexivity|]. split; [reflexivity|].
  apply (requests_keep_round (SocketCashout 7 alice)
           (after None (alice_bets ++ second_round))
           (cashout 7 alice (after None (alice_bets ++ second_round))));
    reflexivity.
Defined.

(** ** The timers *)

(** X20. Once the round has crashed no tick is pending: in every reachable
    state whose round is not active, the update timer cannot fire. *)
Theorem no_tick_after_crash d s now st
  (Hs : reachable d s) (Hidle : isActive (gameState s) = false) :
  step (Tick now st) s = None.
Proof.
  destruct (reachable_sound d s Hs) as [Hc _].
  cbn [step]. unfold fires.
  destruct (coherent_timers s Hc) as [Ht|[t Ht]]; unfold coherent in Hc;
    rewrite Ht in *; [reflexivity|].
  destruct t; [|reflexivity..].
  destruct Hc as (_ & Ha & _). congruence.
Qed.

Lemma no_tick_after_crash_witness :
  reachable None (after None first_crash)
  /\ isActive (gameState (after None first_crash)) = false
  /\ step (Tick 8000 false) (after None first_crash) = None.
Proof.
  assert (Hr : reachable None (after None first_crash)).
  { apply (run_reachable None first_crash (initial None));
      [constructor | vm_compute; reflexivity]. }
  assert (Hi : isActive (gameState (after None first_crash)) = false)
    by (vm_compute; reflexivity).
  split; [exact Hr|]. split; [exact Hi|].
  exact (no_tick_after_crash None (after None first_crash) 8000 false Hr Hi).
Defined.

(** X21. A started game always has its next timer: in every reachable
    state after the start, the update timer, the display timer or the
    betting timer can fire, so the rounds go on for ever. *)
Theorem round_never_stuck d s now r c st
  (Hs : reachable d s) (Hb : booted s = true) :
  is_Some (step (Tick now st) s)
  \/ is_Some (step CrashDisplayOver s)
  \/ is_Some (step (BettingOver r c st) s).
Proof.
  destruct (reachable_sound d s Hs) as [Hc _].
  cbn [step]. unfold fires.
  destruct (coherent_timers s Hc) as [Ht|[t Ht]]; unfold coherent in Hc;
    rewrite Ht in *.
  - destruct Hc as (Hb' & _). congruence.
  - destruct t; cbn [clearTimer Timer_eqb]; eauto.
Qed.

Lemma round_never_stuck_witness :
  reachable None (after None first_crash)
  /\ booted (after None first_crash) = true
  /\ (is_Some (step (Tick 8000 false) (after None first_crash))
      \/ is_Some (step CrashDisplayOver (after None first_crash))
      \/ is_Some (step (BettingOver zero_entropy (clock 22000) false)
                    (after None first_crash))).
Proof.
  assert (Hr : reachable None (after None first_crash)).
  { apply (run_reachable None first_crash (initial None));
      [constructor | vm_compute; reflexivity]. }
  assert (Hb : booted (after None first_crash) = true)
    by (vm_compute; reflexivity).
  split; [exact Hr|]. split; [exact Hb|].
  exact (round_never_stuck None (after None first_crash) 8000 zero_entropy
           (clock 22000) false Hr Hb).
Defined.

(** ** The amount of a bet *)

Lemma keeps_maps_priced s s' : keeps_maps s s' -> bets_priced s -> bets_priced s'.
Proof.
  intros (Hp & _ & Ht & _ & _ & Hw) (Hdb & Htasks & Hb).
  unfold bets_priced. rewrite Hp, Ht. repeat split; [|assumption..].
  rewrite Hdb in Hw. destruct (db s'); [discriminate|reflexivity].
Qed.

Lemma priced_step l s s' : step l s = Some s' -> bets_priced s -> bets_priced s'.
Proof.
  intros Hstep Hs. pose proof Hs as (Hdb & Htasks & Hb).
  assert (Hnone : ~ is_Some (db s)) by (rewrite Hdb; intros [? ?]; discriminate).
  destruct l; cbn [step] in Hstep; unfold fires in Hstep.
  - destruct (booted s); [discriminate|]. simplify_eq.
    eapply keeps_maps_priced; [apply startNewRound_keeps_maps|]. exact Hs.
  - destruct (clearTimer _ _) as [r|]; [|discriminate]. simplify_eq.
    eapply keeps_maps_priced; [apply updateMultiplier_keeps_maps|]. exact Hs.
  - destruct (clearTimer _ _) as [r|]; [|discriminate]. simplify_eq.
    unfold openBetting, bets_priced. srv. repeat split; [assumption..|].
    intros user bet. rewrite lookup_empty. discriminate.
  - destruct (clearTimer _ _) as [r|]; [|discriminate]. simplify_eq.
    eapply keeps_maps_priced; [apply startNewRound_keeps_maps|]. exact Hs.
  - simplify_eq. exact Hs.
  - simplify_eq.
    destruct (placeBet_cases rid b s)
      as [[msg ->]|(c & (_ & Hv & Ham) & _ & _ & [[Hsome _]|[_ ->]])];
      [exact Hs | contradiction |].
    destruct (bet_checked_cases c (default_wallet (bet_username c)) s)
      as [->|[[Hsome _]|[_ ->]]]; [exact Hs | contradiction |].
    unfold bets_priced.
    destruct (bet_record_players c s) as (-> & _ & -> & ->).
    repeat split; [assumption..|]. intros user bet.
    destruct (decide (bet_username c = user)) as [<-|Hne].
    + rewrite lookup_insert_eq. intros [= <-].
      destruct Hv as (_ & _ & _ & _ & _ & Hk).
      assert (Hp : is_Some (price_of (cryptoPrices s) (bet_cryptoType c))).
      { unfold price_of. destruct Hk as [-> | ->]; cbn; eauto. }
      destruct Hp as [p Hp]. exists p.
      cbn [priceAtTime cryptoAmount usdAmount].
      split; [exact Hp|]. rewrite Ham, Hp. reflexivity.
    + rewrite lookup_insert_ne by exact Hne. apply Hb.
  - simplify_eq.
    destruct (cashout_cases sid user s)
      as [(msg & -> & _)|(bet & pay & usd & _ & _ & [[Hsome _]|[_ ->]])];
      [exact Hs | contradiction | exact Hs].
  - simplify_eq. unfold connection.
    destruct (isActive (gameState s)); exact Hs.
  - rewrite Htasks in Hstep. discriminate.
Qed.

(** X22. Without a database every stored bet has
    [cryptoAmount = usdAmount / priceAtTime], the amount read as a number: the amount is computed and the
    price stored from the same [cryptoPrices], in one step. *)
Theorem bet_amount_is_usd_over_price s user bet
  (Hs : reachable None s) (Hbet : players (gameState s) !! user = Some bet) :
  exists p,
    priceAtTime bet = Some p
    /\ cryptoAmount bet = Num.div (json_number (usdAmount bet)) p.
Proof.
  assert (H : bets_priced s).
  { clear Hbet. induction Hs as [|s l s' _ IH Hstep].
    - repeat split. intros u b. cbn. rewrite lookup_empty. discriminate.
    - eapply priced_step; eassumption. }
  destruct H as (_ & _ & H). exact (H user bet Hbet).
Qed.

Lemma bet_amount_is_usd_over_price_witness :
  reachable None (after None alice_bets)
  /\ players (gameState (after None alice_bets)) !! alice = Some alice_bet
  /\ exists p,
      priceAtTime alice_bet = Some p
      /\ cryptoAmount alice_bet = Num.div (json_number (usdAmount alice_bet)) p.
Proof.
  assert (Hr : reachable None (after None alice_bets)).
  { apply (run_reachable None alice_bets (initial None));
      [constructor | vm_compute; reflexivity]. }
  assert (Hb : players (gameState (after None alice_bets)) !! alice
               = Some alice_bet) by (vm_compute; reflexivity).
  split; [exact Hr|]. split; [exact Hb|].
  exact (bet_amount_is_usd_over_price (after None alice_bets) alice alice_bet
           Hr Hb).
Defined.
